(** * Color-range selector: threshold derivation and synchronisation

    Shallow embedding of
    [src/components/src/side-panel/layer-panel/color-range-selector.tsx]:
    the palette filter ([filteredColorRange]), the two threshold
    initialisers ([_fromColorMap], [_init]) and the threshold mutator
    ([_setColorThresholds]), together with the parts of the JavaScript
    runtime they call (IEEE-754 binary64 numbers, [Number.prototype.toString],
    [Number.prototype.toFixed], [parseInt], [parseFloat],
    [String.prototype.split], [Array.prototype.pop]). *)

From Stdlib Require Import ZArith QArith Qround Qabs List Bool Ascii String Lia.
From Stdlib Require Import Floats.SpecFloat.
From Stdlib Require Import Permutation Sorted.
Import ListNotations.
Local Open Scope list_scope.
Local Open Scope string_scope.
Local Open Scope Z_scope.

(** ** Completions: a call returns a value or throws *)

Inductive js_error : Type := TypeError | RangeError.

Inductive result (A : Type) : Type :=
| Ok (a : A)
| Throw (e : js_error).
Arguments Ok {A} a.
Arguments Throw {A} e.

Definition bind {A B : Type} (r : result A) (k : A -> result B) : result B :=
  match r with
  | Ok a => k a
  | Throw e => Throw e
  end.

Notation "'let*' x ':=' r 'in' k" := (bind r (fun x => k))
  (at level 10, x name, r at level 100, k at level 200).

(** ** Strings: sequences of code units *)

Module JsString.

Fixpoint repeat0 (n : nat) : string :=
  match n with
  | O => ""
  | S n' => String "0" (repeat0 n')
  end.

Fixpoint take (n : nat) (s : string) : string :=
  match n, s with
  | S n', String c s' => String c (take n' s')
  | _, _ => ""
  end.

Fixpoint drop (n : nat) (s : string) : string :=
  match n, s with
  | S n', String _ s' => drop n' s'
  | _, _ => s
  end.

(** [s.startsWith(p)] *)
Fixpoint starts_with (p s : string) : bool :=
  match p, s with
  | EmptyString, _ => true
  | String a p', String b s' => Ascii.eqb a b && starts_with p' s'
  | String _ _, EmptyString => false
  end.

(** [String.prototype.split(sep)] without a limit.  [skip] counts the code
    units of a separator occurrence that are still to be consumed, [cur]
    is the piece being read.  Occurrences are found from the left and do
    not overlap.  An empty separator splits into code units. *)
Fixpoint split_go (sep : string) (skip : nat) (cur : string) (s : string)
  : list string :=
  match s with
  | EmptyString => [cur]
  | String c s' =>
      match skip with
      | S k => split_go sep k cur s'
      | O =>
          if starts_with sep s
          then cur :: split_go sep (String.length sep - 1) "" s'
          else split_go sep 0 (cur ++ String c "") s'
      end
  end.

Fixpoint chars (s : string) : list string :=
  match s with
  | EmptyString => []
  | String c s' => String c "" :: chars s'
  end.

Definition split (sep s : string) : list string :=
  match sep with
  | EmptyString => chars s
  | _ => split_go sep 0 "" s
  end.

(** Decimal digits of a non-negative integer, most significant first. *)
Definition digit_char (d : Z) : ascii := ascii_of_nat (48 + Z.to_nat d).

Fixpoint dec_digits_go (fuel : nat) (n : Z) (acc : string) : string :=
  match fuel with
  | O => acc
  | S fuel' =>
      let acc' := String (digit_char (n mod 10)) acc in
      if n / 10 =? 0 then acc' else dec_digits_go fuel' (n / 10) acc'
  end.

Definition dec_digits (n : Z) : string :=
  dec_digits_go (S (Z.to_nat (Z.log2 n))) n "".

(** StrWhiteSpaceChar among the code units below 256. *)
Definition is_whitespace (c : ascii) : bool :=
  let n := nat_of_ascii c in
  existsb (Nat.eqb n) [9; 10; 11; 12; 13; 32; 160]%nat.

Fixpoint trim_start (s : string) : string :=
  match s with
  | String c s' => if is_whitespace c then trim_start s' else s
  | EmptyString => s
  end.

(** Value of a code unit as a digit in radix [R] (up to 36). *)
Definition digit_value (R : Z) (c : ascii) : option Z :=
  let n := Z.of_nat (nat_of_ascii c) in
  let v :=
    if (48 <=? n) && (n <=? 57) then n - 48
    else if (97 <=? n) && (n <=? 122) then n - 87
    else if (65 <=? n) && (n <=? 90) then n - 55
    else 36 in
  if v <? R then Some v else None.

(** Longest prefix of radix-[R] digits: its value and length, and the
    rest of the string. *)
Fixpoint read_digits (R : Z) (acc : Z) (len : nat) (s : string)
  : Z * nat * string :=
  match s with
  | String c s' =>
      match digit_value R c with
      | Some d => read_digits R (R * acc + d) (S len) s'
      | None => (acc, len, s)
      end
  | EmptyString => (acc, len, s)
  end.

End JsString.

(** ** Numbers: IEEE-754 binary64 *)

Module JsNumber.
Import JsString.

Definition number : Type := spec_float.

Definition prec : Z := 53.
Definition emax : Z := 1024.

Definition NaN : number := S754_nan.
Definition add : number -> number -> number := SFadd prec emax.
Definition sub : number -> number -> number := SFsub prec emax.
Definition mul : number -> number -> number := SFmul prec emax.
Definition div : number -> number -> number := SFdiv prec emax.

(** The Number value for a mathematical integer (round to nearest, ties
    to even). *)
Definition of_Z (z : Z) : number := binary_normalize prec emax z 0 false.

(** The Number value for a non-negative rational, with the given sign. *)
Definition of_Q (sign : bool) (q : Q) : number :=
  match Qnum q with
  | Zpos p => div (S754_finite sign p 0) (S754_finite false (Qden q) 0)
  | _ => S754_zero sign
  end.

(** The mathematical value of a finite number (0 for the others). *)
Definition to_Q (x : number) : Q :=
  match x with
  | S754_finite s m e =>
      let a :=
        match e with
        | Zneg k => Zpos m # Pos.pow 2 k
        | _ => (Zpos m * 2 ^ e) # 1
        end in
      if s then Qopp a else a
  | _ => 0%Q
  end.

Definition pow10 (n : Z) : Q := Qpower (10 # 1) n.

Definition isInteger (x : number) : bool :=
  match x with
  | S754_zero _ => true
  | S754_finite _ m e =>
      if 0 <=? e then true else Zpos m mod 2 ^ (- e) =? 0
  | _ => false
  end.

(** *** Number::toString, radix 10

    For a positive finite [x], integers [n], [k], [s] with [k >= 1],
    [10^(k-1) <= s < 10^k], the Number value for [s * 10^(n-k)] being [x],
    [k] as small as possible, and [s] closest to [x] among the
    possibilities (the even one on a tie). *)
Section Shortest.
Variable x : number.

Definition log2_Q (r : Q) : Z := Z.log2 (Qnum r) - Z.log2 (Zpos (Qden r)).

Definition in_decade (n : Z) : bool :=
  Qle_bool (pow10 (n - 1)) (to_Q x) && negb (Qle_bool (pow10 n) (to_Q x)).

(** The [n] with [10^(n-1) <= x < 10^n], searched around an estimate
    taken from the binary logarithm. *)
Definition decimal_exponent : Z :=
  let est := log2_Q (to_Q x) * 30103 / 100000 in
  match filter in_decade [est - 1; est; est + 1; est + 2; est + 3] with
  | n :: _ => n
  | [] => est
  end.

Definition candidates (k n : Z) : list (Z * Z) :=
  let f := Qfloor (to_Q x / pow10 (n - k)) in
  map (fun s => (n, s))
    (filter
       (fun s =>
          (10 ^ (k - 1) <=? s) && (s <? 10 ^ k)
          && SFeqb (of_Q false (inject_Z s * pow10 (n - k))) x)
       [f; f + 1]).

Definition distance (k : Z) (c : Z * Z) : Q :=
  Qabs (inject_Z (snd c) * pow10 (fst c - k) - to_Q x).

Definition closer (k : Z) (c d : Z * Z) : Z * Z :=
  match Qcompare (distance k c) (distance k d) with
  | Lt => c
  | Gt => d
  | Eq => if Z.even (snd c) then c else d
  end.

Definition closest (k : Z) (l : list (Z * Z)) : option (Z * Z) :=
  match l with
  | [] => None
  | c :: l' => Some (fold_left (closer k) l' c)
  end.

Fixpoint shortest_go (fuel : nat) (k : Z) (n0 : Z) : Z * Z :=
  match fuel with
  | O => (n0, Z.min (10 ^ 17 - 1) (Qfloor (to_Q x / pow10 (n0 - 17))))
  | S fuel' =>
      match closest k (candidates k n0 ++ candidates k (n0 + 1)) with
      | Some c => c
      | None => shortest_go fuel' (k + 1) n0
      end
  end.

Definition shortest : Z * Z := shortest_go 17 1 decimal_exponent.
End Shortest.

Definition format_shortest (ns : Z * Z) : string :=
  let '(n, s) := ns in
  let digits := dec_digits s in
  let k := Z.of_nat (String.length digits) in
  if (k <=? n) && (n <=? 21) then
    digits ++ repeat0 (Z.to_nat (n - k))
  else if (0 <? n) && (n <=? 21) then
    take (Z.to_nat n) digits ++ "." ++ drop (Z.to_nat n) digits
  else if (-6 <? n) && (n <=? 0) then
    "0." ++ repeat0 (Z.to_nat (- n)) ++ digits
  else
    let e := n - 1 in
    let es := (if e <? 0 then "-" else "+") ++ dec_digits (Z.abs e) in
    if k =? 1 then digits ++ "e" ++ es
    else take 1 digits ++ "." ++ drop 1 digits ++ "e" ++ es.

Definition toString (x : number) : string :=
  match x with
  | S754_nan => "NaN"
  | S754_zero _ => "0"
  | S754_infinity s => if s then "-Infinity" else "Infinity"
  | S754_finite s m e =>
      (if s then "-" else "")
      ++ format_shortest (shortest (S754_finite false m e))
  end.

(** *** Number.prototype.toFixed *)

Definition fixed_digits (n : Z) (f : nat) : string :=
  let m := dec_digits n in
  match f with
  | O => m
  | _ =>
      let k := String.length m in
      let m' := if (k <=? f)%nat then repeat0 (f + 1 - k) ++ m else m in
      let k' := String.length m' in
      take (k' - f) m' ++ "." ++ drop (k' - f) m'
  end.

Definition toFixed (x : number) (fractionDigits : nat) : result string :=
  if (100 <? fractionDigits)%nat then Throw RangeError
  else
    match x with
    | S754_nan | S754_infinity _ => Ok (toString x)
    | S754_zero _ => Ok (fixed_digits 0 fractionDigits)
    | S754_finite s m e =>
        let r := to_Q (S754_finite false m e) in
        if Qle_bool (pow10 21) r then Ok (toString x)
        else
          let n := Qfloor (r * pow10 (Z.of_nat fractionDigits) + (1 # 2)) in
          Ok ((if s then "-" else "") ++ fixed_digits n fractionDigits)
    end.

(** *** parseInt(string), radix undefined

    The mathematical value of the digits is taken exactly (an engine may
    replace the digits after the 20th by zeros). *)

(** A leading sign: whether it is "-", and the string without it. *)
Definition strip_sign (s : string) : bool * string :=
  match s with
  | String c r =>
      if Ascii.eqb c "-" then (true, r)
      else if Ascii.eqb c "+" then (false, r)
      else (false, s)
  | EmptyString => (false, s)
  end.

(** A leading "0x" or "0X": the radix, and the string without the prefix. *)
Definition strip_hex_prefix (s : string) : Z * string :=
  match s with
  | String c (String d r) =>
      if Ascii.eqb c "0" && (Ascii.eqb d "x" || Ascii.eqb d "X")
      then (16, r) else (10, s)
  | _ => (10, s)
  end.

Definition parseInt (input : string) : number :=
  let s0 := trim_start input in
  let '(sign, s1) := strip_sign s0 in
  let '(R, s2) := strip_hex_prefix s1 in
  match read_digits R 0 0 s2 with
  | (_, O, _) => NaN
  | (mathInt, _, _) =>
      if mathInt =? 0 then S754_zero sign
      else if sign then SFopp (of_Z mathInt) else of_Z mathInt
  end.

(** *** parseFloat(string): the longest prefix that is a StrDecimalLiteral *)
Definition read_exponent (s : string) : Z :=
  match s with
  | String c r =>
      if Ascii.eqb c "e" || Ascii.eqb c "E" then
        let '(neg, r') := strip_sign r in
        match read_digits 10 0 0 r' with
        | (_, O, _) => 0
        | (e, _, _) => if neg then - e else e
        end
      else 0
  | EmptyString => 0
  end.

Definition read_fraction (s : string) : Z * nat * string :=
  match s with
  | String c r =>
      if Ascii.eqb c "." then read_digits 10 0 0 r else (0, O, s)
  | EmptyString => (0, O, s)
  end.

Definition parseFloat (input : string) : number :=
  let s0 := trim_start input in
  let '(sign, s1) := strip_sign s0 in
  if starts_with "Infinity" s1 then S754_infinity sign
  else
    let '(ip, ilen, s2) := read_digits 10 0 0 s1 in
    let '(fp, flen, s3) := read_fraction s2 in
    match ilen, flen with
    | O, O => NaN
    | _, _ =>
        let e := read_exponent s3 in
        of_Q sign
          ((inject_Z ip + inject_Z fp * pow10 (- Z.of_nat flen)) * pow10 e)
    end.

End JsNumber.

(** ** The component [ColorRangeSelector] *)

Module ColorRangeSelector.
Import JsString JsNumber.

(** Values held by thresholds, labels and colors. *)
Inductive value : Type :=
| VUndefined
| VNull
| VNum (x : number)
| VStr (s : string).

(** Conversion of a template literal's substitution. *)
Definition ToString (v : value) : string :=
  match v with
  | VUndefined => "undefined"
  | VNull => "null"
  | VNum x => JsNumber.toString x
  | VStr s => s
  end.

(** Element access [a[i]] for an integer index: [None] is [undefined]. *)
Definition get {A : Type} (a : list A) (i : Z) : option A :=
  if i <? 0 then None else nth_error a (Z.to_nat i).

Definition read (a : list value) (i : Z) : value :=
  match get a i with
  | Some v => v
  | None => VUndefined
  end.

(** Assignment [a[i] = v] for an index [i >= 0]: an index past the end
    extends the array, the elements in between read as [undefined]. *)
Fixpoint Array_set (a : list value) (i : nat) (v : value) : list value :=
  match i, a with
  | O, [] => [v]
  | O, _ :: a' => v :: a'
  | S i', [] => VUndefined :: Array_set [] i' v
  | S i', w :: a' => w :: Array_set a' i' v
  end.

(** [a.pop()]: the removed last element ([None] is [undefined]) and the
    array that is left. *)
Definition Array_pop {A : Type} (a : list A) : option A * list A :=
  (List.last (map Some a) None, removelast a).

(** [a.map((v, i) => f(v, i))], the index starting at [i]. *)
Fixpoint Array_map {A B : Type} (f : A -> Z -> B) (i : Z) (a : list A)
  : list B :=
  match a with
  | [] => []
  | v :: a' => f v i :: Array_map f (i + 1) a'
  end.

(** The same for a callback that may throw: the first throw ends the
    call. *)
Fixpoint Array_map_throw {A B : Type} (f : A -> Z -> result B) (i : Z)
  (a : list A) : result (list B) :=
  match a with
  | [] => Ok []
  | v :: a' =>
      let* b := f v i in
      let* bs := Array_map_throw f (i + 1) a' in
      Ok (b :: bs)
  end.

(** [new Array(len).fill(undefined)] for an integer [len]. *)
Definition new_Array_fill (len : Z) : result (list value) :=
  if (0 <=? len) && (len <? 2 ^ 32)
  then Ok (repeat VUndefined (Z.to_nat len))
  else Throw RangeError.

(** *** Props and state

    [steps] is an integer-valued number, given by its integer.  A domain
    element is a string or a number ([colorDomain?: string[] | number[]]).
    An entry of a color map is a [[label, color]] array, [None] when the
    entry is [null] or [undefined]. *)
Inductive domain_value : Type :=
| DStr (s : string)
| DNum (x : number).

Definition entry : Type := option (list value).

Record ColorRange : Type := {
  name : string;
  type : option string;
  colors : list value;
  reversed : option bool;
  colorMap : option (list entry)
}.

Record ColorRangeConfig : Type := {
  config_type : string;
  steps : Z;
  config_reversed : bool;
  custom : bool
}.

Record ColorUI : Type := {
  customPalette : ColorRange;
  showSketcher : bool;
  colorRangeConfig : ColorRangeConfig
}.

Record Props : Type := {
  colorPaletteUI : ColorUI;
  colorDomain : option (list domain_value)
}.

Record State : Type := {
  isCustomDomain : bool;
  colorThresholds : list value
}.

(** The component instance: its props (the [colorPaletteUI] object is
    shared with the parent and mutated in place), its state, and the calls
    of the [setColorPaletteUI] callback so far. *)
Record Component : Type := {
  props : Props;
  state : State;
  setColorPaletteUI : list ColorUI
}.

Definition value_of_domain (d : option domain_value) : value :=
  match d with
  | None => VUndefined
  | Some (DStr s) => VStr s
  | Some (DNum x) => VNum x
  end.

Definition value_of_number (x : option number) : value :=
  match x with
  | None => VUndefined
  | Some x => VNum x
  end.

(** ToNumber on a number or [undefined]. *)
Definition ToNumber (x : option number) : number :=
  match x with
  | None => NaN
  | Some x => x
  end.

(** *** [_fromColorMap] *)

Definition getEditableThreshold (k : entry) : value :=
  match k with
  | Some (VStr label :: _) =>
      match fst (Array_pop (split " to " label)) with
      | Some t => VStr t
      | None => VUndefined
      end
  | _ => VNull
  end.

Definition _fromColorMap (p : Props) : result (list value) :=
  match colorMap (customPalette (colorPaletteUI p)) with
  | None => Throw TypeError
  | Some colorMap =>
      let thresholds := map getEditableThreshold colorMap in
      Ok (snd (Array_pop thresholds))
  end.

(** *** [_init] *)

(** [typeof d === "string" ? parseInt(d) : d] *)
Definition coerce (d : option domain_value) : option number :=
  match d with
  | Some (DStr s) => Some (parseInt s)
  | Some (DNum x) => Some x
  | None => None
  end.

(** [None] is [undefined]: [Number.isInteger(undefined)] is false and
    [undefined.toString()] throws; so does [.length] on the missing second
    piece of a text without a decimal point. *)
Definition getDecimalPlaces (num : option number) : result nat :=
  match num with
  | None => Throw TypeError
  | Some x =>
      if isInteger x then Ok O
      else
        match nth_error (split "." (JsNumber.toString x)) 1 with
        | Some t => Ok (String.length t)
        | None => Throw TypeError
        end
  end.

Definition roundDown (decimals : nat) (num : number) : result number :=
  match decimals with
  | O => let* s := toFixed num 0 in Ok (parseInt s)
  | _ => let* s := toFixed num decimals in Ok (parseFloat s)
  end.

(** The constants [decimals] and [increment] of [_init], for a domain that
    is present. *)
Definition init_decimals (d : list domain_value) : result nat :=
  let min := coerce (get d 0) in
  let max := coerce (get d 1) in
  let* dmin := getDecimalPlaces min in
  let* dmax := getDecimalPlaces max in
  Ok (Nat.max dmin dmax).

Definition init_increment (d : list domain_value) (length : Z)
  : result number :=
  let min := coerce (get d 0) in
  let max := coerce (get d 1) in
  let* decimals := init_decimals d in
  roundDown decimals (div (sub (ToNumber max) (ToNumber min)) (of_Z length)).

Definition _init (p : Props) : result (list value) :=
  match colorDomain p with
  | None => Ok []
  | Some d =>
      let length := steps (colorRangeConfig (colorPaletteUI p)) in
      let min := coerce (get d 0) in
      let max := coerce (get d 1) in
      let* decimals := init_decimals d in
      let* increment := init_increment d length in
      let* a := new_Array_fill length in
      Array_map_throw
        (fun _ i =>
           if i =? length - 1 then Ok (value_of_number max)
           else
             let* r :=
               roundDown decimals
                 (add (ToNumber min) (mul increment (of_Z (i + 1)))) in
             Ok (VNum r))
        0 a
  end.

(** The initial state of the class. *)
Definition initial_state (p : Props) : result State :=
  match colorMap (customPalette (colorPaletteUI p)) with
  | Some _ =>
      let* t := _fromColorMap p in
      Ok {| isCustomDomain := true; colorThresholds := t |}
  | None =>
      let* t := _init p in
      Ok {| isCustomDomain := false; colorThresholds := t |}
  end.

(** *** [filteredColorRange]

    [COLOR_RANGES] is imported from [@kepler.gl/constants]; it is a
    parameter here.  An entry may have no type.  [Number(steps)] is
    [steps], and [===] on integer-valued numbers is equality of the
    integers. *)
Definition strict_eq_type (t : string) (u : option string) : bool :=
  match u with
  | Some u' => String.eqb t u'
  | None => false
  end.

Definition filteredColorRange (COLOR_RANGES : list ColorRange) (p : Props)
  : list ColorRange :=
  let type' := config_type (colorRangeConfig (colorPaletteUI p)) in
  let steps' := steps (colorRangeConfig (colorPaletteUI p)) in
  filter
    (fun colorRange =>
       let isType :=
         String.eqb type' "all" || strict_eq_type type' (type colorRange) in
       let isStep := steps' =? Z.of_nat (List.length (colors colorRange)) in
       isType && isStep)
    COLOR_RANGES.

(** *** [_setColorThresholds] *)

Definition set_colorMap (ui : ColorUI) (m : list entry) : ColorUI :=
  {| customPalette :=
       {| name := name (customPalette ui);
          type := type (customPalette ui);
          colors := colors (customPalette ui);
          reversed := reversed (customPalette ui);
          colorMap := Some m |};
     showSketcher := showSketcher ui;
     colorRangeConfig := colorRangeConfig ui |}.

Definition isFirst (i : Z) : bool := i =? 0.

Definition isLast {A : Type} (i : Z) (obj : list A) : bool :=
  i =? Z.of_nat (List.length obj) - 1.

Definition _setColorThresholds (index : nat) (value : value) (this : Component)
  : Component :=
  match colorDomain (props this) with
  | None => this
  | Some domain =>
      let colorThresholds := Array_set (colorThresholds (state this)) index value in
      let state' :=
        {| isCustomDomain := isCustomDomain (state this);
           colorThresholds := colorThresholds |} in
      let colorPaletteUI := colorPaletteUI (props this) in
      let colors := colors (customPalette colorPaletteUI) in
      let minima := value_of_domain (get domain 0) in
      let maxima :=
        value_of_domain (get domain (Z.of_nat (List.length domain) - 1)) in
      let colorMap :=
        Array_map
          (fun c i =>
             let minOfRange :=
               if isFirst i then minima else read colorThresholds (i - 1) in
             let maxOfRange :=
               if isLast i colors then maxima else read colorThresholds i in
             Some [VStr (ToString minOfRange ++ " to " ++ ToString maxOfRange); c])
          0 colors in
      let colorPaletteUI' := set_colorMap colorPaletteUI colorMap in
      {| props :=
           {| colorPaletteUI := colorPaletteUI';
              colorDomain := colorDomain (props this) |};
         state := state';
         setColorPaletteUI := setColorPaletteUI this ++ [colorPaletteUI'] |}
  end.

End ColorRangeSelector.

(** ** Notions used to state the properties *)

Module Statements.
Import JsString JsNumber ColorRangeSelector.

(** The string has no space. *)
Fixpoint no_space (s : string) : bool :=
  match s with
  | EmptyString => true
  | String c s' => negb (Ascii.eqb c " ") && no_space s'
  end.

(** [selects P l r]: [r] is [l] with exactly the elements satisfying [P]
    kept, each at its place in the order of [l]. *)
Inductive selects {A : Type} (P : A -> Prop) : list A -> list A -> Prop :=
| selects_nil : selects P [] []
| selects_keep x l r : P x -> selects P l r -> selects P (x :: l) (x :: r)
| selects_skip x l r : ~ P x -> selects P l r -> selects P (x :: l) r.

(** The entry has the requested type and step count. *)
Definition matches (t : string) (s : Z) (e : ColorRange) : Prop :=
  (t = "all" \/ type e = Some t)
  /\ Z.of_nat (List.length (colors e)) = s.

(** A finite number is an integer; nothing is said of the others. *)
Definition integral_if_finite (x : number) : Prop :=
  match x with
  | S754_finite _ _ _ => isInteger x = true
  | _ => True
  end.

(** What [roundDown] returns (NaN stands for a throw). *)
Definition round_of (decimals : nat) (y : number) : number :=
  match roundDown decimals y with
  | Ok r => r
  | Throw _ => NaN
  end.

(** The number has at most [k] decimal places. *)
Definition decimal_places_le (k : nat) (v : value) : Prop :=
  exists x j, v = VNum x /\ getDecimalPlaces (Some x) = Ok j /\ (j <= k)%nat.

(** A binary64 number in canonical form. *)
Definition is_binary64 (x : number) : Prop :=
  valid_binary prec emax x = true.

(** Props with the given domain, step count, colors and color map. *)
Definition make_props (d : option (list domain_value)) (n : Z)
  (cs : list value) (m : option (list entry)) : Props :=
  {| colorPaletteUI :=
       {| customPalette :=
            {| name := "Custom Palette"; type := Some "custom";
               colors := cs; reversed := None; colorMap := m |};
          showSketcher := false;
          colorRangeConfig :=
            {| config_type := "all"; steps := n;
               config_reversed := false; custom := true |} |};
     colorDomain := d |}.

Definition make_component (p : Props) (t : list value) : Component :=
  {| props := p;
     state := {| isCustomDomain := false; colorThresholds := t |};
     setColorPaletteUI := [] |}.

Definition current_colorMap (this : Component) : option (list entry) :=
  colorMap (customPalette (colorPaletteUI (props this))).

Definition current_colors (this : Component) : list value :=
  colors (customPalette (colorPaletteUI (props this))).

(** [_fromColorMap] as the specification words it: a null placeholder
    unless the label is a non-empty string. *)
Definition worded_getEditableThreshold (k : entry) : value :=
  match k with
  | Some (VStr label :: _) =>
      if String.eqb label "" then VNull
      else
        match fst (Array_pop (split " to " label)) with
        | Some t => VStr t
        | None => VUndefined
        end
  | _ => VNull
  end.

Definition worded_fromColorMap (m : list entry) : list value :=
  removelast (map worded_getEditableThreshold m).

End Statements.

(** ** The catalog constants [ALL_TYPES] and [ALL_STEPS] *)

Module Catalog.
Import JsString JsNumber ColorRangeSelector.

(** lodash [uniq]: the first occurrence of each element is kept, in the
    order of the array.  [seen] holds the elements kept so far. *)
Fixpoint uniq_go {A : Type} (eqb : A -> A -> bool) (seen a : list A) : list A :=
  match a with
  | [] => []
  | x :: a' =>
      if existsb (eqb x) seen then uniq_go eqb seen a'
      else x :: uniq_go eqb (x :: seen) a'
  end.

Definition uniq {A : Type} (eqb : A -> A -> bool) (a : list A) : list A :=
  uniq_go eqb [] a.

(** [ctype => ctype] as a filter: [undefined] and the empty string are
    dropped. *)
Definition truthy_type (ctype : option string) : bool :=
  match ctype with
  | Some (String _ _) => true
  | _ => false
  end.

(** The cast [as string[]] of types that are all defined. *)
Definition as_strings (a : list (option string)) : list string :=
  flat_map (fun t => match t with Some s => [s] | None => [] end) a.

Definition ALL_TYPES (COLOR_RANGES : list ColorRange) : list string :=
  uniq String.eqb
    (as_strings (filter truthy_type (map type COLOR_RANGES))
     ++ ["all"; "custom"])%list.

(** [a.sort(cmp)]: a stable sort; [x] goes after [y] when [cmp x y > 0].
    The result is the one of any engine when [cmp] is a consistent
    comparator. *)
Fixpoint sort_insert {A : Type} (cmp : A -> A -> Z) (x : A) (a : list A)
  : list A :=
  match a with
  | [] => [x]
  | y :: a' => if 0 <? cmp x y then y :: sort_insert cmp x a' else x :: a
  end.

Fixpoint Array_sort {A : Type} (cmp : A -> A -> Z) (a : list A) : list A :=
  match a with
  | [] => []
  | x :: a' => sort_insert cmp x (Array_sort cmp a')
  end.

(** [numberSort] is imported from [@kepler.gl/utils]; it is a parameter
    here. *)
Definition ALL_STEPS (numberSort : Z -> Z -> Z) (COLOR_RANGES : list ColorRange)
  : list Z :=
  Array_sort numberSort
    (uniq Z.eqb (map (fun d => Z.of_nat (List.length (colors d))) COLOR_RANGES)).

End Catalog.

(** ** The component [ColorPaletteGroup] *)

Module ColorPaletteGroup.
Import JsString JsNumber ColorRangeSelector.

(** The props; [None] for [reversed] is an omitted prop.  The callback
    [onSelect] is not held: the swatch records what a click passes to it. *)
Record ColorPaletteGroupProps : Type := {
  group_reversed : option bool;
  selected : ColorRange;
  colorRanges : list ColorRange
}.

(** One [StyledColorRange] with its [ColorPalette]. *)
Record Swatch : Type := {
  key : string;
  onClick : ColorRange;
  palette_colors : list value;
  isReversed : option bool;
  isSelected : bool
}.

(** [Boolean(r)] for a flag that may be undefined. *)
Definition Boolean (r : option bool) : bool :=
  match r with
  | Some b => b
  | None => false
  end.

(** [r === b] for a flag that may be undefined and a boolean. *)
Definition strict_eq_flag (r : option bool) (b : bool) : bool :=
  match r with
  | Some b' => Bool.eqb b' b
  | None => false
  end.

(** [reverseColorRange] is imported from [@kepler.gl/utils]; it is a
    parameter here. *)
Definition ColorPaletteGroup
  (reverseColorRange : bool -> ColorRange -> ColorRange)
  (p : ColorPaletteGroupProps) : list Swatch :=
  let reversed := group_reversed p in
  Array_map
    (fun colorRange i =>
       {| key := name colorRange ++ "-" ++ JsNumber.toString (of_Z i);
          onClick :=
            if Boolean reversed then reverseColorRange true colorRange
            else colorRange;
          palette_colors := colors colorRange;
          isReversed := reversed;
          isSelected :=
            String.eqb (name colorRange) (name (selected p))
            && strict_eq_flag reversed
                 (Boolean (ColorRangeSelector.reversed (selected p))) |})
    0 (colorRanges p).

End ColorPaletteGroup.

(** ** What [render] shows below the configuration rows *)

Module Render.
Import JsString JsNumber ColorRangeSelector ColorPaletteGroup.

(** The element chosen by [colorRangeConfig.custom], with the props it is
    given. *)
Inductive Body : Type :=
| CustomPaletteElement (customPalette : ColorRange) (isCustomDomain : bool)
    (colorDomain : option (list domain_value)) (colorThresholds : list value)
    (showSketcher : bool)
| ColorPaletteGroupElement (p : ColorPaletteGroupProps).

(** [selectedColorRange] is a prop of the component that the other
    functions do not read; it is an argument here.  [COLOR_RANGES] is the
    catalog [filteredColorRange] filters. *)
Definition render_body (COLOR_RANGES : list ColorRange)
  (selectedColorRange : ColorRange) (this : Component) : Body :=
  let colorPaletteUI := colorPaletteUI (props this) in
  let colorRangeConfig := colorRangeConfig colorPaletteUI in
  let filteredColorRanges := filteredColorRange COLOR_RANGES (props this) in
  if custom colorRangeConfig then
    CustomPaletteElement (customPalette colorPaletteUI)
      (isCustomDomain (state this)) (colorDomain (props this))
      (colorThresholds (state this)) (showSketcher colorPaletteUI)
  else
    ColorPaletteGroupElement
      {| group_reversed := Some (config_reversed colorRangeConfig);
         selected := selectedColorRange;
         colorRanges := filteredColorRanges |}.

End Render.

(** ** More notions used to state the properties *)

Module MoreStatements.
Import JsString JsNumber ColorRangeSelector Statements.

(** A value whose text has no space: anything but a string with one. *)
Definition spaceless (v : value) : bool :=
  match v with
  | VStr s => no_space s
  | _ => true
  end.

(** A domain whose numbers are binary64 numbers in canonical form. *)
Definition domain_of_numbers (d : list domain_value) : Prop :=
  forall x, In (DNum x) d -> is_binary64 x.

(** The label of a color-map entry at position [j], if it is a pair whose
    first element is a string. *)
Definition label_at (m : list entry) (j : nat) : option string :=
  match nth_error m j with
  | Some (Some (VStr label :: _)) => Some label
  | _ => None
  end.

(** The component that a constructor call with the given props and state
    gives, no callback called yet. *)
Definition mounted (p : Props) (s : State) : Component :=
  {| props := p; state := s; setColorPaletteUI := [] |}.

(** Props whose configuration has the given type and step count. *)
Definition config_props (t : string) (s : Z) : Props :=
  {| colorPaletteUI :=
       {| customPalette :=
            {| name := "Custom Palette"; type := Some "custom";
               colors := []; reversed := None; colorMap := None |};
          showSketcher := false;
          colorRangeConfig :=
            {| config_type := t; steps := s;
               config_reversed := false; custom := false |} |};
     colorDomain := None |}.

(** A catalog entry with the given name, type and colors. *)
Definition catalog_entry (n : string) (t : option string) (cs : list value)
  : ColorRange :=
  {| name := n; type := t; colors := cs; reversed := None; colorMap := None |}.

End MoreStatements.

(** * Properties *)

(** ** Arrays *)

Module ArrayFacts.
Import ColorRangeSelector.

Lemma get_of_nat {A : Type} (a : list A) (j : nat) :
  get a (Z.of_nat j) = nth_error a j.
Proof.
  unfold get. destruct (Z.ltb_spec (Z.of_nat j) 0); [lia |].
  now rewrite Nat2Z.id.
Qed.

Lemma get_negative {A : Type} (a : list A) (i : Z) : i < 0 -> get a i = None.
Proof.
  intros H. unfold get. now destruct (Z.ltb_spec i 0); [| lia].
Qed.

Lemma nth_error_Array_set_same (a : list value) (i : nat) (v : value) :
  nth_error (Array_set a i v) i = Some v.
Proof.
  revert a; induction i as [| i IH]; intros [| w a]; simpl; auto.
Qed.

Lemma read_Array_set_other_nat (a : list value) (i j : nat) (v : value) :
  j <> i -> read (Array_set a i v) (Z.of_nat j) = read a (Z.of_nat j).
Proof.
  unfold read. rewrite !get_of_nat.
  revert a j; induction i as [| i IH]; intros [| w a] [| j] Hj; simpl;
    try congruence; try reflexivity.
  - now destruct j.
  - specialize (IH [] j ltac:(congruence)). now destruct j.
  - apply IH. congruence.
Qed.

Lemma read_Array_set_same (a : list value) (i : nat) (v : value) :
  read (Array_set a i v) (Z.of_nat i) = v.
Proof.
  unfold read. now rewrite get_of_nat, nth_error_Array_set_same.
Qed.

Lemma read_Array_set_other (a : list value) (i : nat) (j : Z) (v : value) :
  j <> Z.of_nat i -> read (Array_set a i v) j = read a j.
Proof.
  intros Hj. destruct (Z.ltb_spec j 0) as [Hneg | Hpos].
  - unfold read. now rewrite !get_negative.
  - rewrite <- (Z2Nat.id j) by assumption.
    apply read_Array_set_other_nat. lia.
Qed.

Lemma Array_map_length {A B : Type} (f : A -> Z -> B) (i : Z) (a : list A) :
  List.length (Array_map f i a) = List.length a.
Proof.
  revert i; induction a as [| v a IH]; intros i; simpl; auto.
Qed.

Lemma Array_map_nth {A B : Type} (f : A -> Z -> B) (i : Z) (a : list A)
  (j : nat) :
  nth_error (Array_map f i a) j
  = option_map (fun c => f c (i + Z.of_nat j)) (nth_error a j).
Proof.
  revert i j; induction a as [| v a IH]; intros i [| j]; simpl; auto.
  - now rewrite Z.add_0_r.
  - rewrite IH. destruct (nth_error a j); simpl; auto.
    do 2 f_equal. lia.
Qed.

Lemma Array_pop_length {A : Type} (a : list A) :
  List.length (snd (Array_pop a)) = (List.length a - 1)%nat.
Proof.
  unfold Array_pop; simpl. induction a as [| v [| w a] IH]; simpl in *; auto.
  rewrite IH. lia.
Qed.

Lemma Array_pop_nth {A : Type} (a : list A) (j : nat) :
  (j + 1 < List.length a)%nat ->
  nth_error (snd (Array_pop a)) j = nth_error a j.
Proof.
  unfold Array_pop; simpl.
  revert j; induction a as [| v [| w a] IH]; intros j Hj; simpl in *;
    try lia.
  destruct j as [| j]; simpl; auto.
  apply IH. lia.
Qed.

Lemma Array_pop_last {A : Type} (a : list A) (v : A) :
  fst (Array_pop (a ++ [v])) = Some v.
Proof.
  unfold Array_pop; simpl. rewrite map_app; simpl. apply last_last.
Qed.

End ArrayFacts.

(** ** Strings *)

Module StringFacts.
Import JsString Statements.

Lemma append_assoc (a b c : string) : ((a ++ b) ++ c = a ++ (b ++ c))%string.
Proof.
  induction a as [| x a IH]; simpl; congruence.
Qed.

Lemma append_empty_r (a : string) : (a ++ "" = a)%string.
Proof.
  induction a as [| x a IH]; simpl; congruence.
Qed.

Lemma prefix_to_no_space (c : ascii) (s : string) :
  Ascii.eqb c " " = false -> starts_with " to " (String c s) = false.
Proof.
  intros H.
  change (starts_with " to " (String c s))
    with (Ascii.eqb " " c && starts_with "to " s)%bool.
  now rewrite Ascii.eqb_sym, H.
Qed.

Lemma split_go_no_space (cur s : string) :
  no_space s = true -> split_go " to " 0 cur s = [(cur ++ s)%string].
Proof.
  revert cur; induction s as [| c s IH]; intros cur H.
  - simpl. now rewrite append_empty_r.
  - simpl in H. apply andb_prop in H as [Hc Hs].
    apply negb_true_iff in Hc.
    change (split_go " to " 0 cur (String c s))
      with (if starts_with " to " (String c s)
            then cur :: split_go " to " 3 "" s
            else split_go " to " 0 (cur ++ String c "") s).
    rewrite (prefix_to_no_space c s Hc), IH by assumption.
    now rewrite append_assoc.
Qed.

(** A label made of two tokens without spaces splits into these tokens. *)
Lemma split_label (lo hi : string) :
  no_space lo = true -> no_space hi = true ->
  split " to " (lo ++ " to " ++ hi) = [lo; hi].
Proof.
  intros Hlo Hhi. unfold split.
  enough (G : forall cur, split_go " to " 0 cur (lo ++ " to " ++ hi)
                          = [(cur ++ lo)%string; hi]) by apply (G "").
  induction lo as [| c lo IH]; intros cur.
  - simpl. rewrite append_empty_r. f_equal.
    now apply (split_go_no_space "" hi).
  - simpl in Hlo. apply andb_prop in Hlo as [Hc Hlo].
    apply negb_true_iff in Hc.
    change (split_go " to " 0 cur (String c lo ++ " to " ++ hi))
      with (if starts_with " to " (String c (lo ++ " to " ++ hi))
            then cur :: split_go " to " 3 "" (lo ++ " to " ++ hi)
            else split_go " to " 0 (cur ++ String c "") (lo ++ " to " ++ hi)).
    rewrite (prefix_to_no_space c _ Hc), IH by assumption.
    now rewrite append_assoc.
Qed.

Lemma split_go_nonempty (sep : string) (skip : nat) (cur s : string) :
  exists pieces t, split_go sep skip cur s = (pieces ++ [t])%list.
Proof.
  revert skip cur; induction s as [| c s IH]; intros skip cur.
  - exists [], cur. reflexivity.
  - cbn [split_go]. destruct skip as [| k]; [| apply IH].
    destruct (starts_with sep (String c s)); [| apply IH].
    destruct (IH (String.length sep - 1)%nat "") as (pieces & t & E).
    exists (cur :: pieces), t. now rewrite E.
Qed.

(** Splitting at a non-empty separator gives at least one piece. *)
Lemma split_nonempty (sep s : string) :
  sep <> "" -> exists pieces t, split sep s = (pieces ++ [t])%list.
Proof.
  intros Hsep. unfold split. destruct sep; [congruence |].
  apply split_go_nonempty.
Qed.

(** A label without spaces is a single piece. *)
Lemma split_no_separator (s : string) :
  no_space s = true -> split " to " s = [s].
Proof.
  intros H. unfold split. now rewrite split_go_no_space.
Qed.

End StringFacts.

(** ** Numbers *)

Module NumberFacts.
Import JsString JsNumber Statements.

(** The runtime functions on known values. *)
Example toString_values :
  map (fun t => toString (parseFloat t))
    ["10.25"; "-123.456"; "0.000001"; "1e-7"; "1.5e-7"; "1e21";
     "123456789012345680000"; "9007199254740993"; "5e-324";
     "1.7976931348623157e308"; "2e308"; "-0"]
  = ["10.25"; "-123.456"; "0.000001"; "1e-7"; "1.5e-7"; "1e+21";
     "123456789012345680000"; "9007199254740992"; "5e-324";
     "1.7976931348623157e+308"; "Infinity"; "0"]
  /\ toString (add (parseFloat "0.1") (parseFloat "0.2"))
     = "0.30000000000000004"
  /\ toString (mul (parseFloat "4.35") (of_Z 100)) = "434.99999999999994".
Proof.
  repeat split; vm_compute; reflexivity.
Qed.

Example toFixed_values :
  toFixed (parseFloat "2.5") 0 = Ok "3"
  /\ toFixed (parseFloat "2.5625") 2 = Ok "2.56"
  /\ toFixed (parseFloat "1.005") 2 = Ok "1.00"
  /\ toFixed (parseFloat "-0.0001") 0 = Ok "-0"
  /\ toFixed (parseFloat "0.5") 3 = Ok "0.500"
  /\ toFixed (parseFloat "1e21") 2 = Ok "1e+21"
  /\ toFixed NaN 0 = Ok "NaN"
  /\ toFixed (of_Z 1) 101 = Throw RangeError.
Proof.
  repeat split; vm_compute; reflexivity.
Qed.

Example parse_values :
  map (fun t => toString (parseInt t))
    ["10.25"; " -1.5e3x"; ".5"; "0x1f.8"; "0X"; "1e+21"; "+12px"; "abc"; ""]
  = ["10"; "-1"; "NaN"; "31"; "NaN"; "1"; "12"; "NaN"; "NaN"]
  /\ map (fun t => toString (parseFloat t))
       [" -1.5e3x"; ".5"; "."; "1."; "1e"; "-Infinityx"; "0x10"; "abc"]
     = ["-1500"; "0.5"; "NaN"; "1"; "1"; "-Infinity"; "0"; "NaN"]
  /\ split " to " "0 to 2" = ["0"; "2"]
  /\ split " to " "a to to b" = ["a"; "to b"]
  /\ split "." "NaN" = ["NaN"].
Proof.
  repeat split; vm_compute; reflexivity.
Qed.

Lemma digits2_pos_iter_xO (p k : positive) :
  digits2_pos (Pos.iter xO p k) = (digits2_pos p + k)%positive.
Proof.
  induction k as [| k IH] using Pos.peano_ind.
  - simpl. lia.
  - rewrite Pos.iter_succ. simpl. rewrite IH. lia.
Qed.

Lemma Zpos_iter_xO (p k : positive) :
  Zpos (Pos.iter xO p k) = Zpos p * 2 ^ Zpos k.
Proof.
  induction k as [| k IH] using Pos.peano_ind.
  - simpl. lia.
  - rewrite Pos.iter_succ, Pos2Z.inj_xO, IH, Pos2Z.inj_succ.
    rewrite Z.pow_succ_r by lia. ring.
Qed.

(** Shifting right never lowers the exponent. *)
Lemma shr_exponent (mrs : shr_record) (e n : Z) : e <= snd (shr mrs e n).
Proof.
  unfold shr. destruct n; simpl; lia.
Qed.

Lemma shr_fexp_exponent (m e : Z) (l : location) :
  e <= snd (shr_fexp prec emax m e l).
Proof.
  unfold shr_fexp. apply shr_exponent.
Qed.

Lemma binary_round_aux_integral (s : bool) (m e : Z) (l : location) :
  0 <= e -> integral_if_finite (binary_round_aux prec emax s m e l).
Proof.
  intros He. unfold binary_round_aux.
  pose proof (shr_fexp_exponent m e l) as H1.
  destruct (shr_fexp prec emax m e l) as [mrs' e'].
  pose proof (shr_fexp_exponent
                (round_nearest_even (shr_m mrs') (loc_of_shr_record mrs'))
                e' loc_Exact) as H2.
  destruct (shr_fexp prec emax _ e' loc_Exact) as [mrs'' e''].
  simpl in H1, H2.
  destruct (shr_m mrs''); simpl; auto;
    destruct (e'' <=? _); simpl; auto;
    destruct (Z.leb_spec 0 e''); (reflexivity || lia).
Qed.

Lemma binary_round_integral (s : bool) (p : positive) :
  integral_if_finite (binary_round prec emax s p 0).
Proof.
  unfold binary_round.
  set (d := Zpos (digits2_pos p)).
  rewrite Z.add_0_r.
  assert (Hd : 1 <= d) by (unfold d; lia).
  unfold shl_align, fexp, emin, prec, emax.
  destruct (Z.max (d - 53) (3 - 1024 - 53) - 0) as [| k | k] eqn:E.
  - now apply binary_round_aux_integral.
  - now apply binary_round_aux_integral.
  - assert (Hk : Zpos k = 53 - d) by lia.
    assert (Ez : Z.max (d - 53) (3 - 1024 - 53) = d - 53) by lia.
    rewrite Ez.
    unfold binary_round_aux, shr_fexp, Zdigits2.
    rewrite digits2_pos_iter_xO, Pos2Z.inj_add. fold d.
    unfold fexp, emin, prec, emax.
    replace (Z.max (d + Z.pos k + (d - 53) - 53) (3 - 1024 - 53) - (d - 53))
      with 0 by lia.
    cbn [shr shr_record_of_loc shr_m loc_of_shr_record round_nearest_even
         Zdigits2].
    rewrite digits2_pos_iter_xO, Pos2Z.inj_add. fold d.
    replace (Z.max (d + Z.pos k + (d - 53) - 53) (3 - 1024 - 53) - (d - 53))
      with 0 by lia.
    cbn [shr shr_m].
    destruct (d - 53 <=? 1024 - 53); [| exact I].
    cbn [integral_if_finite isInteger].
    destruct (Z.leb_spec 0 (d - 53)); [reflexivity |].
    rewrite Zpos_iter_xO. replace (- (d - 53)) with (Zpos k) by lia.
    rewrite Z.mod_mul by lia. reflexivity.
Qed.

Lemma of_Z_integral (z : Z) : integral_if_finite (of_Z z).
Proof.
  unfold of_Z, binary_normalize. destruct z; simpl; auto;
    apply binary_round_integral.
Qed.

Lemma integral_if_finite_opp (x : number) :
  integral_if_finite x -> integral_if_finite (SFopp x).
Proof.
  destruct x; simpl; auto.
Qed.

(** [parseInt] gives an integer, an infinity or NaN. *)
Lemma parseInt_integral (s : string) : integral_if_finite (parseInt s).
Proof.
  unfold parseInt.
  destruct (strip_sign (trim_start s)) as [sign s1].
  destruct (strip_hex_prefix s1) as [R s2].
  destruct (read_digits R 0 0 s2) as [[mathInt len] rest].
  destruct len; simpl; auto.
  destruct (mathInt =? 0); simpl; auto.
  destruct sign; [apply integral_if_finite_opp |]; apply of_Z_integral.
Qed.

(** *** [parseInt] stops at a decimal point *)

Lemma trim_start_before_point (a b : string) :
  trim_start (a ++ String "." b) = (trim_start a ++ String "." b)%string.
Proof.
  induction a as [| c a IH]; simpl; auto.
  destruct (is_whitespace c); auto.
Qed.

Lemma read_digits_before_point (R : Z) (a b : string) (acc : Z) (len : nat) :
  R = 10 \/ R = 16 ->
  exists rest rest',
    read_digits R acc len (a ++ String "." b) = (fst (fst (read_digits R acc len a)), snd (fst (read_digits R acc len a)), rest)
    /\ read_digits R acc len a = (fst (fst (read_digits R acc len a)), snd (fst (read_digits R acc len a)), rest').
Proof.
  intros HR. revert acc len; induction a as [| c a IH]; intros acc len.
  - simpl. replace (digit_value R ".") with (@None Z)
      by (destruct HR; subst; reflexivity).
    simpl. eauto.
  - simpl. destruct (digit_value R c) as [d |]; [apply IH |].
    simpl. eauto.
Qed.

Lemma parseInt_before_point (a b : string) :
  parseInt (a ++ "." ++ b) = parseInt a.
Proof.
  unfold parseInt. cbn [append]. rewrite trim_start_before_point.
  set (a' := trim_start a).
  assert (S1 : forall sg r, strip_sign a' = (sg, r)
               -> exists r', strip_sign (a' ++ String "." b) = (sg, r')
                      /\ (r' = (r ++ String "." b)%string)).
  { intros sg r. unfold strip_sign. destruct a' as [| c t]; simpl.
    - intros [= <- <-]. eauto.
    - destruct (Ascii.eqb c "-"); [intros [= <- <-]; eauto |].
      destruct (Ascii.eqb c "+"); intros [= <- <-]; eauto. }
  destruct (strip_sign a') as [sg r].
  destruct (S1 sg r eq_refl) as (r' & -> & ->).
  assert (S2 : forall R t, strip_hex_prefix r = (R, t)
               -> (R = 10 \/ R = 16)
                  /\ strip_hex_prefix (r ++ String "." b)
                     = (R, (t ++ String "." b)%string)).
  { intros R t. unfold strip_hex_prefix.
    destruct r as [| c [| c' u]]; cbn [append].
    - intros [= <- <-]. split; auto. now destruct b.
    - intros [= <- <-]. split; auto.
      replace (Ascii.eqb "." "x" || Ascii.eqb "." "X") with false
        by reflexivity.
      now rewrite andb_false_r.
    - destruct (Ascii.eqb c "0" && (Ascii.eqb c' "x" || Ascii.eqb c' "X"));
        intros [= <- <-]; auto. }
  destruct (strip_hex_prefix r) as [R t].
  destruct (S2 R t eq_refl) as (HR & ->).
  destruct (read_digits_before_point R t b 0 0 HR) as (u & u' & E1 & E2).
  rewrite E1, E2. reflexivity.
Qed.

End NumberFacts.

(** ** The length of a number's text *)

Module LengthFacts.
Import JsString JsNumber Statements.

Lemma length_append (a b : string) :
  String.length (a ++ b) = (String.length a + String.length b)%nat.
Proof.
  induction a as [| c a IH]; simpl; auto.
Qed.

Lemma length_repeat0 (n : nat) : String.length (repeat0 n) = n.
Proof.
  induction n as [| n IH]; simpl; auto.
Qed.

Lemma length_take_drop (n : nat) (s : string) :
  (String.length (take n s) + String.length (drop n s))%nat = String.length s.
Proof.
  revert s; induction n as [| n IH]; intros [| c s]; simpl; auto.
Qed.

Lemma length_dec_digits_go (fuel : nat) (n : Z) (acc : string) :
  (String.length (dec_digits_go fuel n acc) <= fuel + String.length acc)%nat.
Proof.
  revert n acc; induction fuel as [| fuel IH]; intros n acc; simpl.
  - lia.
  - destruct (n / 10 =? 0); simpl; [lia |].
    specialize (IH (n / 10) (String (digit_char (n mod 10)) acc)).
    simpl in IH. lia.
Qed.

Lemma length_dec_digits (n b : Z) :
  0 <= b -> n < 2 ^ (b + 1) ->
  (String.length (dec_digits n) <= S (Z.to_nat b))%nat.
Proof.
  intros Hb Hn. unfold dec_digits.
  pose proof (length_dec_digits_go (S (Z.to_nat (Z.log2 n))) n "") as H.
  change (String.length "") with O in H.
  assert (Z.log2 n <= b).
  { destruct (Z.ltb_spec 0 n) as [Hpos | Hneg].
    - apply Z.log2_lt_pow2 in Hn; lia.
    - rewrite Z.log2_nonpos; lia. }
  pose proof (Z.log2_nonneg n). lia.
Qed.

(** Each piece of a split is no longer than the string. *)
Lemma length_split_go (sep : string) (skip : nat) (cur s t : string) :
  In t (split_go sep skip cur s) ->
  (String.length t <= String.length cur + String.length s)%nat.
Proof.
  revert skip cur; induction s as [| c s IH]; intros skip cur; cbn [split_go].
  - intros [<- | []]. lia.
  - destruct skip as [| k].
    + destruct (starts_with sep (String c s)).
      * intros [<- | H]; [lia |]. apply IH in H. simpl in *. lia.
      * intros H. apply IH in H. rewrite length_append in H. simpl in *. lia.
    + intros H. apply IH in H. simpl. lia.
Qed.

Lemma length_split_piece (s t : string) (i : nat) :
  nth_error (split "." s) i = Some t ->
  (String.length t <= String.length s)%nat.
Proof.
  intros H. apply nth_error_In in H. unfold split in H.
  apply length_split_go in H. simpl in H. lia.
Qed.

Lemma length_format_shortest (n s : Z) :
  s < 2 ^ 57 -> - 2 ^ 11 < n - 1 < 2 ^ 11 ->
  (String.length (format_shortest (n, s)) <= 90)%nat.
Proof.
  intros Hs Hn. unfold format_shortest.
  pose proof (length_dec_digits s 56 ltac:(lia) Hs) as HK.
  assert (HE : (String.length (dec_digits (Z.abs (n - 1))) <= 11)%nat).
  { apply (length_dec_digits _ 10); lia. }
  set (digits := dec_digits s) in *.
  set (es := dec_digits (Z.abs (n - 1))) in *.
  change (Z.to_nat 56) with 56%nat in HK.
  destruct ((Z.of_nat (String.length digits) <=? n) && (n <=? 21)) eqn:C1.
  { apply andb_prop in C1 as [C1a C1b].
    apply Z.leb_le in C1a, C1b.
    rewrite length_append, length_repeat0. lia. }
  destruct ((0 <? n) && (n <=? 21)) eqn:C2.
  { rewrite !length_append.
    pose proof (length_take_drop (Z.to_nat n) digits). simpl. lia. }
  destruct ((-6 <? n) && (n <=? 0)) eqn:C3.
  { apply andb_prop in C3 as [C3a C3b].
    apply Z.ltb_lt in C3a. apply Z.leb_le in C3b.
    rewrite !length_append, length_repeat0. simpl. lia. }
  destruct (Z.of_nat (String.length digits) =? 1).
  - rewrite !length_append. fold es. destruct (n - 1 <? 0); simpl; lia.
  - rewrite !length_append. fold es.
    pose proof (length_take_drop 1 digits).
    set (a := take 1 digits) in *. set (b := drop 1 digits) in *.
    destruct (n - 1 <? 0); simpl; lia.
Qed.

(** *** The digits and the exponent of the shortest representation *)

Lemma closer_choice (x : number) (k : Z) (c d : Z * Z) :
  closer x k c d = c \/ closer x k c d = d.
Proof.
  unfold closer. destruct (Qcompare _ _); auto. destruct (Z.even _); auto.
Qed.

Lemma closest_In (x : number) (k : Z) (l : list (Z * Z)) (c : Z * Z) :
  closest x k l = Some c -> In c l.
Proof.
  unfold closest. destruct l as [| c0 l]; [discriminate |].
  intros [= <-]. revert c0; induction l as [| d l IH]; intros c0.
  - left. reflexivity.
  - cbn [fold_left]. specialize (IH (closer x k c0 d)).
    destruct (closer_choice x k c0 d) as [E | E]; rewrite E in *;
      destruct IH as [IH | IH]; simpl; auto.
Qed.

Lemma candidates_bound (x : number) (k n : Z) (c : Z * Z) :
  In c (candidates x k n) -> fst c = n /\ snd c < 10 ^ k.
Proof.
  unfold candidates. rewrite in_map_iff. intros (s & <- & H).
  apply filter_In in H as [_ H].
  apply andb_prop in H as [H _]. apply andb_prop in H as [_ H].
  apply Z.ltb_lt in H. simpl. auto.
Qed.

Lemma pow10_17_lt : 10 ^ 17 < 2 ^ 57.
Proof. reflexivity. Qed.

Lemma shortest_go_bound (x : number) (fuel : nat) (k n0 : Z) :
  0 <= k -> k + Z.of_nat fuel <= 18 ->
  (fst (shortest_go x fuel k n0) = n0 \/ fst (shortest_go x fuel k n0) = n0 + 1)
  /\ snd (shortest_go x fuel k n0) < 10 ^ 17.
Proof.
  revert k; induction fuel as [| fuel IH]; intros k Hk Hf; cbn [shortest_go].
  - cbn [fst snd]. split; [auto |]. lia.
  - destruct (closest x k _) as [c |] eqn:E.
    + apply closest_In in E. apply in_app_or in E.
      assert (10 ^ k <= 10 ^ 17) by (apply Z.pow_le_mono_r; lia).
      destruct E as [E | E]; apply candidates_bound in E as [E1 E2];
        split; auto; lia.
    + apply IH; lia.
Qed.

Lemma decimal_exponent_bound (x : number) :
  let est := log2_Q (to_Q x) * 30103 / 100000 in
  est - 1 <= decimal_exponent x <= est + 3.
Proof.
  intros est. unfold decimal_exponent. fold est.
  destruct (filter _ _) as [| n l] eqn:E; [lia |].
  assert (H : In n (filter (in_decade x) [est - 1; est; est + 1; est + 2; est + 3]))
    by (rewrite E; left; reflexivity).
  apply filter_In in H as [H _]. simpl in H. lia.
Qed.

Lemma log2_Zpos_digits (m : positive) :
  Z.log2 (Zpos m) = Zpos (digits2_pos m) - 1.
Proof.
  assert (HS : forall p, digits2_pos p = Pos.size p)
    by (induction p; simpl; congruence).
  destruct m as [p | p |]; cbn [Z.log2 digits2_pos];
    change PosDef.Pos.succ with Pos.succ;
    rewrite ?Pos2Z.inj_succ; [rewrite (HS p) | rewrite (HS p) |]; lia.
Qed.

Lemma bounded_mantissa_exponent (m : positive) (e : Z) :
  bounded prec emax m e = true ->
  Z.log2 (Zpos m) <= 52 /\ -1074 <= e <= 971.
Proof.
  unfold bounded, canonical_mantissa, fexp, emin, prec, emax.
  intros H. apply andb_prop in H as [H1 H2].
  apply Z.eqb_eq in H1. apply Z.leb_le in H2.
  rewrite log2_Zpos_digits. lia.
Qed.

Lemma log2_Q_bound (m : positive) (e : Z) :
  bounded prec emax m e = true ->
  -1074 <= log2_Q (to_Q (S754_finite false m e)) <= 1023.
Proof.
  intros H. apply bounded_mantissa_exponent in H as [Hm He].
  pose proof (Z.log2_nonneg (Zpos m)) as Hm0.
  unfold log2_Q, to_Q. destruct e as [| e | k]; cbn [Qnum Qden].
  - rewrite Z.mul_1_r. change (Z.log2 1) with 0. lia.
  - rewrite Z.log2_mul_pow2 by lia. change (Z.log2 1) with 0. lia.
  - rewrite Pos2Z.inj_pow, Z.log2_pow2 by lia. lia.
Qed.

Lemma shortest_bound (m : positive) (e : Z) :
  bounded prec emax m e = true ->
  let ns := shortest (S754_finite false m e) in
  snd ns < 2 ^ 57 /\ - 2 ^ 11 < fst ns - 1 < 2 ^ 11.
Proof.
  intros H ns. unfold ns, shortest.
  pose proof (log2_Q_bound m e H) as HL.
  pose proof (decimal_exponent_bound (S754_finite false m e)) as HD.
  cbv zeta in HD.
  destruct (shortest_go_bound (S754_finite false m e) 17 1
              (decimal_exponent (S754_finite false m e))) as [Hn Hs];
    [lia | lia |].
  pose proof pow10_17_lt.
  set (b := log2_Q (to_Q (S754_finite false m e))) in *.
  assert (-1074 <= b * 30103 / 100000 <= 1023).
  { split.
    - apply Z.div_le_lower_bound; lia.
    - apply Z.div_le_upper_bound; lia. }
  change (2 ^ 11) with 2048. lia.
Qed.

(** The text of a binary64 number has at most 91 code units. *)
Lemma length_toString (x : number) :
  is_binary64 x -> (String.length (toString x) <= 91)%nat.
Proof.
  unfold is_binary64. destruct x as [s | s | | s m e]; cbn [valid_binary].
  - intros _. simpl. lia.
  - intros _. destruct s; simpl; lia.
  - intros _. simpl; lia.
  - intros H. cbn [toString]. rewrite length_append.
    destruct (shortest_bound m e H) as [Hs Hn].
    destruct (shortest (S754_finite false m e)) as [n s'].
    cbn [fst snd] in Hs, Hn.
    pose proof (length_format_shortest n s' Hs Hn).
    destruct s;
      [change (String.length "-") with 1%nat
      | change (String.length "") with 0%nat]; lia.
Qed.

(** [toFixed] returns for up to 100 fraction digits. *)
Lemma toFixed_returns (x : number) (f : nat) :
  (f <= 100)%nat -> exists s, toFixed x f = Ok s.
Proof.
  intros Hf. unfold toFixed.
  destruct (Nat.ltb_spec 100 f); [lia |].
  destruct x as [s | s | | s m e]; eauto.
  destruct (Qle_bool _ _); eauto.
Qed.

End LengthFacts.

(** ** The threshold mutator *)

Module MutatorFacts.
Import JsString JsNumber ColorRangeSelector Statements ArrayFacts.

(** The label the mutator writes at position [j]. *)
Lemma colorMap_after_set (index : nat) (v : value) (this : Component)
  (d : list domain_value) :
  colorDomain (props this) = Some d ->
  let this' := _setColorThresholds index v this in
  let t' := colorThresholds (state this') in
  let cs := current_colors this in
  t' = Array_set (colorThresholds (state this)) index v
  /\ exists m,
      current_colorMap this' = Some m
      /\ List.length m = List.length cs
      /\ forall (j : nat) (c : value),
          nth_error cs j = Some c ->
          nth_error m j
          = Some (Some
              [VStr (ToString
                       (if (j =? 0)%nat then value_of_domain (get d 0)
                        else read t' (Z.of_nat j - 1))
                     ++ " to "
                     ++ ToString
                          (if (S j =? List.length cs)%nat
                           then value_of_domain
                                  (get d (Z.of_nat (List.length d) - 1))
                           else read t' (Z.of_nat j)));
               c]).
Proof.
  intros Hd. unfold _setColorThresholds, current_colorMap, current_colors.
  rewrite Hd. cbn [props state colorThresholds colorPaletteUI customPalette
                     colorMap set_colorMap].
  split; [reflexivity |].
  eexists; split; [reflexivity |]. split; [apply Array_map_length |].
  intros j c Hj. rewrite Array_map_nth, Hj. cbn [option_map].
  unfold isFirst, isLast. rewrite Z.add_0_l.
  replace (Z.of_nat j =? 0) with (j =? 0)%nat
    by (destruct (Nat.eqb_spec j 0), (Z.eqb_spec (Z.of_nat j) 0); lia).
  replace (Z.of_nat j =? Z.of_nat (List.length
             (colors (customPalette (colorPaletteUI (props this))))) - 1)
    with (S j =? List.length
            (colors (customPalette (colorPaletteUI (props this)))))%nat.
  - reflexivity.
  - destruct (Nat.eqb_spec (S j) (List.length
             (colors (customPalette (colorPaletteUI (props this)))))),
      (Z.eqb_spec (Z.of_nat j) (Z.of_nat (List.length
             (colors (customPalette (colorPaletteUI (props this))))) - 1));
      lia.
Qed.

End MutatorFacts.

(** ** The threshold initialiser *)

Module InitFacts.
Import JsString JsNumber ColorRangeSelector Statements NumberFacts.
Import ArrayFacts LengthFacts.

Lemma getDecimalPlaces_NaN : getDecimalPlaces (Some NaN) = Throw TypeError.
Proof. reflexivity. Qed.

Lemma getDecimalPlaces_infinity (s : bool) :
  getDecimalPlaces (Some (S754_infinity s)) = Throw TypeError.
Proof. destruct s; reflexivity. Qed.

(** [getDecimalPlaces] throws nothing but a TypeError. *)
Lemma getDecimalPlaces_throws (x : option number) (e : js_error) :
  getDecimalPlaces x = Throw e -> e = TypeError.
Proof.
  unfold getDecimalPlaces. destruct x as [x |]; [| congruence].
  destruct (isInteger x); [discriminate |].
  destruct (nth_error _ 1); congruence.
Qed.

(** The decimal places of an integer, an infinity or NaN: none, or a
    TypeError. *)
Lemma getDecimalPlaces_integral (x : number) :
  integral_if_finite x ->
  getDecimalPlaces (Some x) = Ok O \/ getDecimalPlaces (Some x) = Throw TypeError.
Proof.
  destruct x as [s | s | | s m e]; intros H.
  - left. reflexivity.
  - right. apply getDecimalPlaces_infinity.
  - right. reflexivity.
  - left. unfold getDecimalPlaces. unfold integral_if_finite in H.
    now rewrite H.
Qed.

(** A binary64 number has at most 91 decimal places in its text. *)
Lemma getDecimalPlaces_bound (x : number) (k : nat) :
  is_binary64 x -> getDecimalPlaces (Some x) = Ok k -> (k <= 91)%nat.
Proof.
  intros Hx. unfold getDecimalPlaces.
  destruct (isInteger x); [intros [= <-]; lia |].
  destruct (nth_error _ 1) as [t |] eqn:E; [| discriminate].
  intros [= <-]. apply length_split_piece in E.
  pose proof (length_toString x Hx). lia.
Qed.

Lemma roundDown_returns (decimals : nat) (y : number) :
  (decimals <= 100)%nat ->
  exists s,
    toFixed y decimals = Ok s
    /\ roundDown decimals y
       = Ok (match decimals with O => parseInt s | _ => parseFloat s end).
Proof.
  intros H. destruct (toFixed_returns y decimals H) as [s E].
  exists s. split; [exact E |].
  unfold roundDown. destruct decimals; rewrite E; reflexivity.
Qed.

Lemma Array_map_throw_returns {A B : Type} (f : A -> Z -> result B)
  (g : A -> Z -> B) (i : Z) (a : list A) :
  (forall v j, f v j = Ok (g v j)) ->
  Array_map_throw f i a = Ok (Array_map g i a).
Proof.
  intros H. revert i; induction a as [| v a IH]; intros i; simpl.
  - reflexivity.
  - now rewrite H, IH.
Qed.

End InitFacts.

Module Spec.
Import JsString JsNumber ColorRangeSelector Statements.
Import ArrayFacts StringFacts NumberFacts MutatorFacts InitFacts.

(** C6. When the domain is undefined, [_setColorThresholds] changes
    nothing, whatever the index and the raw value: the component (its
    threshold state, its color map, the calls of the callback) is the
    one it was given, and no error is possible. *)
Theorem setColorThresholds_without_domain
  (index : nat) (v : value) (this : Component) :
  colorDomain (props this) = None ->
  _setColorThresholds index v this = this.
Proof.
  intros H. unfold _setColorThresholds. now rewrite H.
Qed.

Lemma setColorThresholds_without_domain_witness :
  let this :=
    make_component
      (make_props None 5 [VStr "#fff"; VStr "#000"]
         (Some [Some [VStr "0 to 5"; VStr "#fff"];
                Some [VStr "5 to 10"; VStr "#000"]]))
      [VNum (of_Z 5)] in
  colorDomain (props this) = None
  /\ _setColorThresholds 0 (VStr "7") this = this.
Proof.
  split; [reflexivity |].
  apply setColorThresholds_without_domain. reflexivity.
Defined.

(** C8. For every catalog, type and step count, the palette filter
    returns exactly the entries whose type is the requested one (any
    entry when the requested type is "all") and whose number of colors is
    the step count, in the order of the catalog. *)
Theorem filteredColorRange_selects_matches
  (COLOR_RANGES : list ColorRange) (p : Props) :
  let t := config_type (colorRangeConfig (colorPaletteUI p)) in
  let s := steps (colorRangeConfig (colorPaletteUI p)) in
  selects (matches t s) COLOR_RANGES (filteredColorRange COLOR_RANGES p)
  /\ forall e,
      In e (filteredColorRange COLOR_RANGES p)
      <-> In e COLOR_RANGES /\ matches t s e.
Proof.
  intros t s.
  assert (M : forall e,
             (String.eqb t "all" || strict_eq_type t (type e))
             && (s =? Z.of_nat (List.length (colors e))) = true
             <-> matches t s e).
  { intros e. unfold matches, strict_eq_type.
    rewrite andb_true_iff, orb_true_iff, Z.eqb_eq, String.eqb_eq.
    destruct (type e) as [u |].
    - rewrite String.eqb_eq. split.
      + intros [[H | H] Hs]; subst; auto.
      + intros [[H | H] Hs]; [| injection H as H]; subst; auto.
    - split.
      + intros [[H | H] Hs]; [subst; auto | discriminate].
      + intros [[H | H] Hs]; [subst; auto | discriminate]. }
  unfold filteredColorRange. fold t s. split.
  - induction COLOR_RANGES as [| e l IH]; simpl.
    + constructor.
    + destruct ((String.eqb t "all" || strict_eq_type t (type e))
                && (s =? Z.of_nat (List.length (colors e)))) eqn:E.
      * apply selects_keep; [now apply M | exact IH].
      * apply selects_skip; [| exact IH].
        intros H. apply M in H. congruence.
  - intros e. rewrite filter_In. now rewrite M.
Qed.

(** C9. With a domain present, [_setColorThresholds index v] stores the
    raw value [v] at position [index] as it is given (a text that is not a
    number, a value that breaks the order or leaves the domain, all the
    same) and leaves every other position as it was; the labels of the
    rebuilt color map are the texts of the bounds as they stand, so [v]
    ends the label at [index] and starts the label after it. *)
Theorem setColorThresholds_stores_raw_value
  (index : nat) (v : value) (this : Component) (d : list domain_value) :
  colorDomain (props this) = Some d ->
  let this' := _setColorThresholds index v this in
  let t := colorThresholds (state this) in
  let t' := colorThresholds (state this') in
  let cs := current_colors this in
  read t' (Z.of_nat index) = v
  /\ (forall j, j <> Z.of_nat index -> read t' j = read t j)
  /\ isCustomDomain (state this') = isCustomDomain (state this)
  /\ exists m,
      current_colorMap this' = Some m
      /\ (forall c, nth_error cs index = Some c ->
          (S index < List.length cs)%nat ->
          exists lo,
            nth_error m index = Some (Some [VStr (lo ++ " to " ++ ToString v); c]))
      /\ (forall c, nth_error cs (S index) = Some c ->
          exists hi,
            nth_error m (S index)
            = Some (Some [VStr (ToString v ++ " to " ++ hi); c]))
      /\ (forall s, v = VStr s -> ToString v = s).
Proof.
  intros Hd this' t t' cs.
  destruct (colorMap_after_set index v this d Hd) as (Ht & m & Hm & _ & Hl).
  fold this' in Ht, Hm, Hl. fold t' in Ht, Hl. fold cs in Hl. fold t in Ht.
  split; [rewrite Ht; apply read_Array_set_same |].
  split; [intros j Hj; rewrite Ht; now apply read_Array_set_other |].
  split.
  { unfold this', _setColorThresholds. now rewrite Hd. }
  exists m. split; [exact Hm |]. split; [| split].
  - intros c Hc Hlt. rewrite (Hl index c Hc).
    replace (S index =? List.length cs)%nat with false
      by (symmetry; apply Nat.eqb_neq; lia).
    rewrite Ht, read_Array_set_same. eexists. reflexivity.
  - intros c Hc. rewrite (Hl (S index) c Hc).
    cbn [Nat.eqb].
    replace (Z.of_nat (S index) - 1) with (Z.of_nat index) by lia.
    rewrite Ht, read_Array_set_same. eexists. reflexivity.
  - intros s ->. reflexivity.
Qed.

Lemma setColorThresholds_stores_raw_value_witness :
  let d := [DNum (of_Z 0); DNum (of_Z 10)] in
  let this :=
    make_component
      (make_props (Some d) 3 [VStr "#f00"; VStr "#0f0"; VStr "#00f"] None)
      [VNum (of_Z 3); VNum (of_Z 7)] in
  colorDomain (props this) = Some d
  /\ read (colorThresholds (state (_setColorThresholds 0 (VStr "six") this))) 0
     = VStr "six".
Proof.
  split; [reflexivity |].
  apply (setColorThresholds_stores_raw_value 0 (VStr "six")
           (make_component
              (make_props (Some [DNum (of_Z 0); DNum (of_Z 10)]) 3
                 [VStr "#f00"; VStr "#0f0"; VStr "#00f"] None)
              [VNum (of_Z 3); VNum (of_Z 7)])
           [DNum (of_Z 0); DNum (of_Z 10)]).
  reflexivity.
Defined.

(** C7. Every color map the threshold mutator produces has as many
    pairs as there are colors; every label is a lower bound, the
    separator " to " and an upper bound; the lower bound of the first pair
    is the first element of the domain (its min) and the upper bound of the
    last pair is the last element of the domain (its max); this for every
    threshold array, index and raw value. *)
Theorem setColorThresholds_colorMap_invariant
  (index : nat) (v : value) (this : Component) (d : list domain_value) :
  colorDomain (props this) = Some d ->
  let this' := _setColorThresholds index v this in
  let cs := current_colors this in
  exists m,
    current_colorMap this' = Some m
    /\ List.length m = List.length cs
    /\ forall (j : nat) (c : value),
        nth_error cs j = Some c ->
        exists lo hi,
          nth_error m j = Some (Some [VStr (lo ++ " to " ++ hi); c])
          /\ (j = O -> lo = ToString (value_of_domain (get d 0)))
          /\ (S j = List.length cs ->
              hi = ToString
                     (value_of_domain (get d (Z.of_nat (List.length d) - 1)))).
Proof.
  intros Hd this' cs.
  destruct (colorMap_after_set index v this d Hd) as (_ & m & Hm & Hlen & Hl).
  exists m. split; [exact Hm |]. split; [exact Hlen |].
  intros j c Hc. do 2 eexists. split; [apply (Hl j c Hc) |]. split.
  - intros ->. reflexivity.
  - intros E. fold cs in E |- *. now rewrite E, Nat.eqb_refl.
Qed.

Lemma setColorThresholds_colorMap_invariant_witness :
  let d := [DNum (of_Z 0); DNum (of_Z 10)] in
  let this :=
    make_component
      (make_props (Some d) 3 [VStr "#f00"; VStr "#0f0"; VStr "#00f"] None)
      [VNum (of_Z 3); VNum (of_Z 7)] in
  colorDomain (props this) = Some d
  /\ exists m,
      current_colorMap (_setColorThresholds 1 (VStr "2") this) = Some m
      /\ List.length m = 3%nat.
Proof.
  split; [reflexivity |].
  destruct (setColorThresholds_colorMap_invariant 1 (VStr "2")
              (make_component
                 (make_props (Some [DNum (of_Z 0); DNum (of_Z 10)]) 3
                    [VStr "#f00"; VStr "#0f0"; VStr "#00f"] None)
                 [VNum (of_Z 3); VNum (of_Z 7)])
              [DNum (of_Z 0); DNum (of_Z 10)] eq_refl)
    as (m & Hm & Hlen & _).
  exists m. split; [exact Hm | exact Hlen].
Defined.

(** C4. With domain [0, 10], five colors and the thresholds [2, 4, 6, 8]
    (as they read after the edit, numbers or texts), the rebuild that
    [_setColorThresholds] drives gives the color map "0 to 2", "2 to 4",
    "4 to 6", "6 to 8", "8 to 10" over the five colors, and
    [_fromColorMap] on that map gives the texts "2", "4", "6", "8", the
    last entry dropped. *)
Theorem colorMap_round_trip
  (c0 c1 c2 c3 c4 : value) (index : nat) (v : value) (this : Component) :
  colorDomain (props this) = Some [DNum (of_Z 0); DNum (of_Z 10)] ->
  current_colors this = [c0; c1; c2; c3; c4] ->
  map ToString (Array_set (colorThresholds (state this)) index v)
  = ["2"; "4"; "6"; "8"] ->
  let this' := _setColorThresholds index v this in
  current_colorMap this'
  = Some [Some [VStr "0 to 2"; c0]; Some [VStr "2 to 4"; c1];
          Some [VStr "4 to 6"; c2]; Some [VStr "6 to 8"; c3];
          Some [VStr "8 to 10"; c4]]
  /\ _fromColorMap (props this')
     = Ok [VStr "2"; VStr "4"; VStr "6"; VStr "8"].
Proof.
  intros Hd Hcs Ht this'.
  destruct (colorMap_after_set index v this _ Hd) as (Et & m & Hm & Hlen & Hl).
  fold this' in Et, Hm, Hl. rewrite Hcs in Hlen, Hl. rewrite <- Et in Ht.
  assert (E0 : ToString (value_of_domain (get [DNum (of_Z 0); DNum (of_Z 10)] 0))
               = "0") by (vm_compute; reflexivity).
  assert (E10 : ToString (value_of_domain
                  (get [DNum (of_Z 0); DNum (of_Z 10)]
                     (Z.of_nat 2 - 1)))
                = "10") by (vm_compute; reflexivity).
  destruct (colorThresholds (state this')) as [| t0 [| t1 [| t2 [| t3 [| ? ?]]]]];
    try discriminate Ht.
  injection Ht as H0 H1 H2 H3.
  pose proof (Hl 0%nat c0 eq_refl) as L0.
  pose proof (Hl 1%nat c1 eq_refl) as L1.
  pose proof (Hl 2%nat c2 eq_refl) as L2.
  pose proof (Hl 3%nat c3 eq_refl) as L3.
  pose proof (Hl 4%nat c4 eq_refl) as L4.
  cbn [Nat.eqb List.length] in L0, L1, L2, L3, L4.
  rewrite E0 in L0. rewrite E10 in L4. clear E0 E10.
  cbv [read get Z.of_nat Pos.of_succ_nat Pos.succ Z.sub Z.add Z.opp
       Z.pos_sub Z.ltb Z.compare Pos.compare Pos.compare_cont Z.to_nat
       Pos.to_nat Pos.iter_op Nat.add nth_error Z.succ_double Z.pred_double
       Z.double Pos.pred_double]
    in L1, L2, L3, L4, L0.
  rewrite H0 in L0, L1. rewrite H1 in L1, L2. rewrite H2 in L2, L3.
  rewrite H3 in L3, L4.
  assert (Em : m = [Some [VStr "0 to 2"; c0]; Some [VStr "2 to 4"; c1];
                    Some [VStr "4 to 6"; c2]; Some [VStr "6 to 8"; c3];
                    Some [VStr "8 to 10"; c4]]).
  { destruct m as [| e0 [| e1 [| e2 [| e3 [| e4 [| ? ?]]]]]]; try discriminate Hlen.
    cbn [nth_error] in L0, L1, L2, L3, L4.
    injection L0 as ->. injection L1 as ->. injection L2 as ->.
    injection L3 as ->. injection L4 as ->. reflexivity. }
  subst m. split; [exact Hm |].
  unfold _fromColorMap. unfold current_colorMap in Hm. rewrite Hm.
  reflexivity.
Qed.

Lemma colorMap_round_trip_witness :
  let this :=
    make_component
      (make_props (Some [DNum (of_Z 0); DNum (of_Z 10)]) 5
         [VStr "c0"; VStr "c1"; VStr "c2"; VStr "c3"; VStr "c4"] None)
      [VNum (of_Z 2); VNum (of_Z 5); VNum (of_Z 6); VNum (of_Z 8)] in
  _fromColorMap (props (_setColorThresholds 1 (VStr "4") this))
  = Ok [VStr "2"; VStr "4"; VStr "6"; VStr "8"].
Proof.
  apply (colorMap_round_trip (VStr "c0") (VStr "c1") (VStr "c2") (VStr "c3")
           (VStr "c4") 1 (VStr "4")
           (make_component
              (make_props (Some [DNum (of_Z 0); DNum (of_Z 10)]) 5
                 [VStr "c0"; VStr "c1"; VStr "c2"; VStr "c3"; VStr "c4"] None)
              [VNum (of_Z 2); VNum (of_Z 5); VNum (of_Z 6); VNum (of_Z 8)])).
  - reflexivity.
  - reflexivity.
  - vm_compute. reflexivity.
Defined.

(** C5 (as amended). For every color map, [_fromColorMap] maps each
    non-empty entry whose first element (the label) is a string, the empty
    string included, to the last piece of the label split at the separator
    " to ": the upper bound for a label "lo to hi" of two tokens without
    spaces, the whole label when it has no separator.  It maps every other
    entry to null, drops the last element, and returns as many values as
    the map has entries but one (none for an empty map). *)
Theorem fromColorMap_upper_bounds (p : Props) (m : list entry) :
  colorMap (customPalette (colorPaletteUI p)) = Some m ->
  exists l,
    _fromColorMap p = Ok l
    /\ List.length l = (List.length m - 1)%nat
    /\ (forall j label rest,
          (j + 1 < List.length m)%nat ->
          nth_error m j = Some (Some (VStr label :: rest)) ->
          exists pieces t,
            split " to " label = (pieces ++ [t])%list
            /\ nth_error l j = Some (VStr t)
            /\ (forall lo hi, no_space lo = true -> no_space hi = true ->
                label = lo ++ " to " ++ hi -> t = hi)
            /\ (no_space label = true -> t = label))
    /\ (forall j k,
          (j + 1 < List.length m)%nat ->
          nth_error m j = Some k ->
          (forall label rest, k <> Some (VStr label :: rest)) ->
          nth_error l j = Some VNull).
Proof.
  intros Hm. unfold _fromColorMap. rewrite Hm.
  eexists. split; [reflexivity |]. split; [| split].
  - now rewrite Array_pop_length, length_map.
  - intros j label rest Hj Hk.
    rewrite Array_pop_nth by now rewrite length_map.
    rewrite nth_error_map, Hk. cbn [option_map getEditableThreshold].
    destruct (split_nonempty " to " label) as (pieces & t & E);
      [discriminate |].
    exists pieces, t. rewrite E, Array_pop_last.
    split; [reflexivity |]. split; [reflexivity |]. split.
    + intros lo hi Hlo Hhi ->. rewrite split_label in E by assumption.
      change [lo; hi] with ([lo] ++ [hi])%list in E.
      now apply app_inj_tail in E.
    + intros Hs. rewrite split_no_separator in E by assumption.
      change [label] with ([] ++ [label])%list in E.
      now apply app_inj_tail in E.
  - intros j k Hj Hk Hnot.
    rewrite Array_pop_nth by now rewrite length_map.
    rewrite nth_error_map, Hk. cbn [option_map]. f_equal.
    destruct k as [[| [| | |] rest] |]; try reflexivity.
    now elim (Hnot s rest).
Qed.

Lemma fromColorMap_upper_bounds_witness :
  exists l,
    _fromColorMap
      (make_props None 2 [VStr "#fff"; VStr "#000"]
         (Some [Some [VStr "0 to 5"; VStr "#fff"];
                Some [VStr "5 to 10"; VStr "#000"]])) = Ok l
    /\ List.length l = 1%nat.
Proof.
  destruct (fromColorMap_upper_bounds
              (make_props None 2 [VStr "#fff"; VStr "#000"]
                 (Some [Some [VStr "0 to 5"; VStr "#fff"];
                        Some [VStr "5 to 10"; VStr "#000"]]))
              [Some [VStr "0 to 5"; VStr "#fff"];
               Some [VStr "5 to 10"; VStr "#000"]] eq_refl)
    as (l & Hl & Hlen & _).
  exists l. split; [exact Hl | exact Hlen].
Defined.

(** C5 as worded fails: an entry whose label is the empty string is
    mapped to the empty string, not to null. *)
Lemma fromColorMap_empty_label :
  let m := [Some [VStr ""; VStr "#fff"]; Some [VStr "0 to 1"; VStr "#000"]] in
  _fromColorMap (make_props None 2 [VStr "#fff"; VStr "#000"] (Some m))
  = Ok [VStr ""]
  /\ worded_fromColorMap m = [VNull]
  /\ _fromColorMap (make_props None 2 [VStr "#fff"; VStr "#000"] (Some m))
     <> Ok (worded_fromColorMap m).
Proof.
  split; [reflexivity |]. split; [reflexivity |]. discriminate.
Qed.

(** C1. A domain whose min or max is a string that [parseInt] reads as
    NaN makes [_init] throw a TypeError: [getDecimalPlaces] finds no
    decimal point in "NaN" and reads the length of [undefined].  No
    threshold sequence is returned, and the constructor of a component
    without a color map, which calls [_init], throws as well. *)
Theorem init_throws_on_non_numeric_string
  (p : Props) (d : list domain_value) (s : string) :
  colorDomain p = Some d ->
  get d 0 = Some (DStr s) \/ get d 1 = Some (DStr s) ->
  parseInt s = NaN ->
  _init p = Throw TypeError
  /\ (colorMap (customPalette (colorPaletteUI p)) = None ->
      initial_state p = Throw TypeError).
Proof.
  intros Hd Hs Hnan.
  assert (E : init_decimals d = Throw TypeError).
  { unfold init_decimals. destruct Hs as [H | H].
    - rewrite H. cbn [coerce]. rewrite Hnan. reflexivity.
    - rewrite H. cbn [coerce]. rewrite Hnan.
      destruct (getDecimalPlaces (coerce (get d 0))) as [n | e] eqn:E0.
      + reflexivity.
      + apply getDecimalPlaces_throws in E0. now subst e. }
  assert (I : _init p = Throw TypeError).
  { unfold _init. now rewrite Hd, E. }
  split; [exact I |].
  intros Hm. unfold initial_state. now rewrite Hm, I.
Qed.

Lemma init_throws_on_non_numeric_string_witness :
  _init (make_props (Some [DStr "abc"; DStr "10"]) 5 [] None)
  = Throw TypeError.
Proof.
  apply (init_throws_on_non_numeric_string
           (make_props (Some [DStr "abc"; DStr "10"]) 5 [] None)
           [DStr "abc"; DStr "10"] "abc").
  - reflexivity.
  - left. reflexivity.
  - reflexivity.
Defined.

(** C2. With precision 0 the increment is [(max - min) / steps] rounded
    to the nearest integer, not truncated: for the domain [0, 10] and four
    steps it is 3, where truncation gives 2, and the thresholds are
    3, 6, 9, 10; for twelve steps it is 1 and the threshold 11 passes the
    max. *)
Theorem init_increment_rounds_to_nearest :
  let d := [DNum (of_Z 0); DNum (of_Z 10)] in
  init_decimals d = Ok O
  /\ init_increment d 4 = Ok (of_Z 3)
  /\ Qfloor (to_Q (div (sub (of_Z 10) (of_Z 0)) (of_Z 4))) = 2
  /\ _init (make_props (Some d) 4 [] None)
     = Ok (map (fun z => VNum (of_Z z)) [3; 6; 9; 10])
  /\ _init (make_props (Some d) 12 [] None)
     = Ok (map (fun z => VNum (of_Z z)) [1; 2; 3; 4; 5; 6; 7; 8; 9; 10; 11; 10]).
Proof.
  repeat split; vm_compute; reflexivity.
Qed.

(** C10. A domain bound given as a string is read by [parseInt], which
    stops at a decimal point: "10.25" becomes 10, and in general the text
    after the point is ignored.  The decimal precision of a domain of two
    strings is the one of the two integers read, so it is 0 whenever it is
    computed at all. *)
Theorem init_parses_strings_as_integers :
  parseInt "10.25" = of_Z 10
  /\ (forall a b, parseInt (a ++ "." ++ b) = parseInt a)
  /\ (forall a b rest,
        init_decimals (DStr a :: DStr b :: rest)
        = init_decimals (DNum (parseInt a) :: DNum (parseInt b) :: rest))
  /\ (forall a b rest n,
        init_decimals (DStr a :: DStr b :: rest) = Ok n -> n = O)
  /\ _init (make_props (Some [DStr "0"; DStr "10.25"]) 4 [] None)
     = _init (make_props (Some [DNum (of_Z 0); DNum (of_Z 10)]) 4 [] None).
Proof.
  split; [vm_compute; reflexivity |].
  split; [apply parseInt_before_point |].
  split; [reflexivity |].
  split; [| vm_compute; reflexivity].
  intros a b rest n. unfold init_decimals.
  change (coerce (get (DStr a :: DStr b :: rest) 0)) with (Some (parseInt a)).
  change (coerce (get (DStr a :: DStr b :: rest) 1)) with (Some (parseInt b)).
  destruct (getDecimalPlaces_integral _ (parseInt_integral a)) as [-> | ->];
    [| discriminate].
  destruct (getDecimalPlaces_integral _ (parseInt_integral b)) as [-> | ->];
    [| discriminate].
  cbn. congruence.
Qed.

Lemma init_parses_strings_as_integers_witness :
  init_decimals [DStr "0"; DStr "10.25"] = Ok O /\ O = O.
Proof.
  split; [reflexivity |].
  apply (proj1 (proj2 (proj2 (proj2 init_parses_strings_as_integers)))
           "0" "10.25" [] O).
  reflexivity.
Defined.

(** C3 (as amended). For every domain of two binary64 numbers whose
    decimal places [getDecimalPlaces] can count (each is an integer, or
    its text has a decimal point) and every step count from 1 to
    2^32 - 1, [_init] returns exactly [steps] values: the value at
    [steps - 1] is max, the value at any other index [i] is
    [min + increment * (i + 1)] rounded by [roundDown] at the inferred
    precision, where [increment] is [(max - min) / steps] rounded the same
    way and [roundDown] reads the text [toFixed] gives.  In particular the
    domain [0, 10] with 5 steps gives 2, 4, 6, 8, 10, and the domain
    [0, 10.25] with 4 steps gives 2.56, 5.12, 7.68, 10.25: at most two
    decimal places each, the last exactly 10.25. *)
Theorem init_threshold_values :
  (forall (p : Props) (d : list domain_value) (mn mx : number) (n : Z)
          (dmin dmax : nat),
      colorDomain p = Some d ->
      get d 0 = Some (DNum mn) -> get d 1 = Some (DNum mx) ->
      is_binary64 mn -> is_binary64 mx ->
      getDecimalPlaces (Some mn) = Ok dmin ->
      getDecimalPlaces (Some mx) = Ok dmax ->
      steps (colorRangeConfig (colorPaletteUI p)) = n ->
      1 <= n < 2 ^ 32 ->
      let decimals := Nat.max dmin dmax in
      exists (increment : number) (l : list value),
        (forall y, exists s,
            toFixed y decimals = Ok s
            /\ round_of decimals y
               = match decimals with O => parseInt s | _ => parseFloat s end)
        /\ init_decimals d = Ok decimals
        /\ init_increment d n = Ok increment
        /\ increment = round_of decimals (div (sub mx mn) (of_Z n))
        /\ _init p = Ok l
        /\ Z.of_nat (List.length l) = n
        /\ forall i, 0 <= i < n ->
            read l i
            = if i =? n - 1 then VNum mx
              else VNum (round_of decimals
                           (add mn (mul increment (of_Z (i + 1))))))
  /\ _init (make_props (Some [DNum (of_Z 0); DNum (of_Z 10)]) 5 [] None)
     = Ok (map (fun z => VNum (of_Z z)) [2; 4; 6; 8; 10])
  /\ exists l,
      _init (make_props (Some [DNum (of_Z 0); DNum (of_Q false (41 # 4))]) 4
               [] None) = Ok l
      /\ map ToString l = ["2.56"; "5.12"; "7.68"; "10.25"]
      /\ Forall (decimal_places_le 2) l
      /\ read l 3 = VNum (of_Q false (41 # 4)).
Proof.
  split; [| split].
  - intros p d mn mx n dmin dmax Hd H0 H1 Vmn Vmx Dmn Dmx Hn Hrange decimals.
    assert (Hdec : (decimals <= 100)%nat).
    { pose proof (getDecimalPlaces_bound mn dmin Vmn Dmn).
      pose proof (getDecimalPlaces_bound mx dmax Vmx Dmx).
      unfold decimals. lia. }
    assert (R : forall y, roundDown decimals y = Ok (round_of decimals y)).
    { intros y. unfold round_of.
      destruct (roundDown_returns decimals y Hdec) as (s & _ & ->).
      reflexivity. }
    assert (Edec : init_decimals d = Ok decimals).
    { unfold init_decimals. rewrite H0, H1. cbn [coerce].
      rewrite Dmn, Dmx. reflexivity. }
    assert (Einc : init_increment d n
                   = Ok (round_of decimals (div (sub mx mn) (of_Z n)))).
    { unfold init_increment. rewrite Edec, H0, H1.
      cbn [bind coerce ToNumber]. apply R. }
    exists (round_of decimals (div (sub mx mn) (of_Z n))).
    set (increment := round_of decimals (div (sub mx mn) (of_Z n))) in *.
    set (g := fun (_ : value) (i : Z) =>
                if i =? n - 1 then VNum mx
                else VNum (round_of decimals
                             (add mn (mul increment (of_Z (i + 1)))))).
    exists (Array_map g 0 (repeat VUndefined (Z.to_nat n))).
    split.
    { intros y. destruct (roundDown_returns decimals y Hdec) as (s & E & E').
      exists s. split; [exact E |]. unfold round_of. now rewrite E'. }
    split; [exact Edec |]. split; [exact Einc |]. split; [reflexivity |].
    split; [| split].
    + unfold _init. rewrite Hd, Hn, Edec, Einc. cbn [bind].
      unfold new_Array_fill.
      replace ((0 <=? n) && (n <? 2 ^ 32)) with true
        by (symmetry; apply andb_true_intro; split;
            [apply Z.leb_le | apply Z.ltb_lt]; lia).
      cbn [bind]. apply Array_map_throw_returns.
      intros v j. rewrite H0, H1. cbn [coerce ToNumber value_of_number].
      unfold g. destruct (j =? n - 1); [reflexivity |].
      now rewrite R.
    + rewrite Array_map_length, repeat_length. lia.
    + intros i Hi. unfold read.
      rewrite <- (Z2Nat.id i) at 1 by lia.
      rewrite get_of_nat, Array_map_nth, nth_error_repeat by lia.
      cbn [option_map]. rewrite Z.add_0_l, Z2Nat.id by lia. reflexivity.
  - vm_compute. reflexivity.
  - eexists. split; [vm_compute; reflexivity |].
    split; [vm_compute; reflexivity |]. split.
    + repeat constructor; eexists; eexists;
        (split; [reflexivity |]); (split; [vm_compute; reflexivity |]); lia.
    + reflexivity.
Qed.

Lemma init_threshold_values_witness :
  exists l,
    _init (make_props (Some [DNum (of_Z 0); DNum (of_Z 10)]) 5 [] None) = Ok l
    /\ Z.of_nat (List.length l) = 5.
Proof.
  destruct (proj1 init_threshold_values
              (make_props (Some [DNum (of_Z 0); DNum (of_Z 10)]) 5 [] None)
              [DNum (of_Z 0); DNum (of_Z 10)] (of_Z 0) (of_Z 10) 5 O O
              eq_refl eq_refl eq_refl eq_refl eq_refl eq_refl eq_refl eq_refl
              ltac:(split; [lia | reflexivity]))
    as (increment & l & _ & _ & _ & _ & Hl & Hlen & _).
  exists l. split; [exact Hl | exact Hlen].
Defined.

(** C3 as worded fails: the numeric domain [0, 1e-7] makes [_init] throw
    a TypeError (the text "1e-7" has no decimal point), and so does a
    domain with NaN; 2^32 steps make it throw a RangeError. *)
Lemma init_throws_on_numeric_domain :
  JsNumber.toString (of_Q false (1 # 10000000)) = "1e-7"
  /\ is_binary64 (of_Q false (1 # 10000000))
  /\ _init (make_props
              (Some [DNum (of_Z 0); DNum (of_Q false (1 # 10000000))]) 5
              [] None) = Throw TypeError
  /\ _init (make_props (Some [DNum NaN; DNum (of_Z 10)]) 5 [] None)
     = Throw TypeError
  /\ _init (make_props (Some [DNum (of_Z 0); DNum (of_Z 10)]) (2 ^ 32)
              [] None) = Throw RangeError.
Proof.
  repeat split; vm_compute; reflexivity.
Qed.

End Spec.

(** * Further properties *)

(** ** More on the threshold initialiser *)

Module MoreInitFacts.
Import JsString JsNumber ColorRangeSelector Statements.
Import ArrayFacts NumberFacts LengthFacts InitFacts.

(** What a returning [Array_map_throw] has computed. *)
Lemma Array_map_throw_inv {A B : Type} (f : A -> Z -> result B) (i : Z)
  (a : list A) (l : list B) :
  Array_map_throw f i a = Ok l ->
  List.length l = List.length a
  /\ forall (j : nat) (b : B),
      nth_error l j = Some b ->
      exists v, nth_error a j = Some v /\ f v (i + Z.of_nat j) = Ok b.
Proof.
  revert i l; induction a as [| v a IH]; intros i l; cbn [Array_map_throw].
  - intros [= <-]. split; [reflexivity |]. intros [| j] b; discriminate.
  - destruct (f v i) as [b0 | e] eqn:E0; [| discriminate]. cbn [bind].
    destruct (Array_map_throw f (i + 1) a) as [bs | e] eqn:E1; [| discriminate].
    cbn [bind]. intros [= <-]. destruct (IH _ _ E1) as [Hlen Hnth].
    split; [simpl; congruence |].
    intros [| j] b Hb; cbn [nth_error] in *.
    + injection Hb as <-. exists v. rewrite Z.add_0_r. auto.
    + destruct (Hnth j b Hb) as (w & Hw & Hf). exists w. split; [exact Hw |].
      rewrite <- Hf. f_equal. lia.
Qed.

Lemma roundDown_throws (decimals : nat) (y : number) (e : js_error) :
  roundDown decimals y = Throw e -> e = RangeError /\ (100 < decimals)%nat.
Proof.
  intros H. destruct (Nat.ltb_spec 100 decimals) as [Hd | Hd].
  - split; [| exact Hd]. unfold roundDown, toFixed in H.
    destruct decimals as [| k]; [lia |].
    replace (100 <? S k)%nat with true in H
      by (symmetry; now apply Nat.ltb_lt).
    cbn [bind] in H. congruence.
  - destruct (roundDown_returns decimals y Hd) as (s & _ & E). congruence.
Qed.

(** [roundDown] at precision 0 gives an integer, an infinity or NaN. *)
Lemma roundDown_0_integral (y r : number) :
  roundDown 0 y = Ok r -> integral_if_finite r.
Proof.
  unfold roundDown. destruct (toFixed y 0) as [s | e]; [| discriminate].
  cbn [bind]. intros [= <-]. apply parseInt_integral.
Qed.

Lemma new_Array_fill_inv (n : Z) (a : list value) :
  new_Array_fill n = Ok a ->
  0 <= n < 2 ^ 32 /\ a = repeat VUndefined (Z.to_nat n).
Proof.
  unfold new_Array_fill.
  destruct ((0 <=? n) && (n <? 2 ^ 32)) eqn:E; [| discriminate].
  apply andb_prop in E as [E1 E2]. apply Z.leb_le in E1. apply Z.ltb_lt in E2.
  intros [= <-]. auto.
Qed.

Lemma new_Array_fill_throws (n : Z) :
  n < 0 \/ 2 ^ 32 <= n -> new_Array_fill n = Throw RangeError.
Proof.
  intros H. unfold new_Array_fill.
  replace ((0 <=? n) && (n <? 2 ^ 32)) with false; [reflexivity |].
  symmetry. apply andb_false_iff. destruct H as [H | H].
  - left. apply Z.leb_gt. exact H.
  - right. apply Z.ltb_ge. exact H.
Qed.

(** The shape of every sequence [_init] returns for a domain that is
    present. *)
Lemma init_inv (p : Props) (d : list domain_value) (l : list value) :
  colorDomain p = Some d ->
  _init p = Ok l ->
  let n := steps (colorRangeConfig (colorPaletteUI p)) in
  exists decimals increment,
    init_decimals d = Ok decimals
    /\ init_increment d n = Ok increment
    /\ 0 <= n < 2 ^ 32
    /\ Z.of_nat (List.length l) = n
    /\ forall i, 0 <= i < n ->
        if i =? n - 1 then read l i = value_of_number (coerce (get d 1))
        else exists r,
            roundDown decimals
              (add (ToNumber (coerce (get d 0))) (mul increment (of_Z (i + 1))))
            = Ok r
            /\ read l i = VNum r.
Proof.
  intros Hd H n. unfold _init in H. rewrite Hd in H. fold n in H.
  destruct (init_decimals d) as [decimals | e] eqn:Edec; [| discriminate].
  cbn [bind] in H.
  destruct (init_increment d n) as [increment | e] eqn:Einc; [| discriminate].
  cbn [bind] in H.
  destruct (new_Array_fill n) as [a | e] eqn:Ea; [| discriminate].
  cbn [bind] in H.
  apply new_Array_fill_inv in Ea as [Hn ->].
  apply Array_map_throw_inv in H as [Hlen Hnth].
  rewrite repeat_length in Hlen.
  exists decimals, increment. repeat split; try assumption; try lia.
  intros i Hi.
  assert (Hlt : (Z.to_nat i < List.length l)%nat) by lia.
  destruct (nth_error l (Z.to_nat i)) as [b |] eqn:Eb;
    [| apply nth_error_None in Eb; lia].
  destruct (Hnth _ _ Eb) as (v & _ & Hf).
  rewrite Z.add_0_l, Z2Nat.id in Hf by lia.
  assert (Er : read l i = b).
  { unfold read. rewrite <- (Z2Nat.id i) by lia. now rewrite get_of_nat, Eb. }
  destruct (i =? n - 1).
  - rewrite Er. congruence.
  - destruct (roundDown decimals _) as [r |] eqn:Erd; [| discriminate].
    cbn [bind] in Hf. exists r. split; [reflexivity |]. rewrite Er. congruence.
Qed.

Lemma coerce_binary64 (d : list domain_value) (i : Z) (x : number) :
  MoreStatements.domain_of_numbers d ->
  coerce (get d i) = Some x ->
  is_binary64 x \/ integral_if_finite x.
Proof.
  intros Hd. unfold get. destruct (i <? 0); [discriminate |].
  destruct (nth_error d (Z.to_nat i)) as [[s | y] |] eqn:E; cbn [coerce];
    intros [= <-].
  - right. apply parseInt_integral.
  - left. apply Hd. eapply nth_error_In. exact E.
Qed.

Lemma getDecimalPlaces_coerce_bound (d : list domain_value) (i : Z) (k : nat) :
  MoreStatements.domain_of_numbers d ->
  getDecimalPlaces (coerce (get d i)) = Ok k -> (k <= 91)%nat.
Proof.
  intros Hd H. destruct (coerce (get d i)) as [x |] eqn:E; [| discriminate].
  destruct (coerce_binary64 d i x Hd E) as [Hx | Hx].
  - now apply (getDecimalPlaces_bound x).
  - destruct (getDecimalPlaces_integral x Hx) as [E' | E']; rewrite E' in H;
      [injection H as <-; lia | discriminate].
Qed.

(** The precision inferred from such a domain is at most 91. *)
Lemma init_decimals_bound (d : list domain_value) (decimals : nat) :
  MoreStatements.domain_of_numbers d ->
  init_decimals d = Ok decimals -> (decimals <= 91)%nat.
Proof.
  intros Hd. unfold init_decimals.
  destruct (getDecimalPlaces (coerce (get d 0))) as [a |] eqn:Ea;
    [| discriminate].
  destruct (getDecimalPlaces (coerce (get d 1))) as [b |] eqn:Eb;
    [| discriminate].
  cbn [bind]. intros [= <-].
  apply (getDecimalPlaces_coerce_bound d 0 a Hd) in Ea.
  apply (getDecimalPlaces_coerce_bound d 1 b Hd) in Eb. lia.
Qed.

(** [init_decimals] throws nothing but a TypeError. *)
Lemma init_decimals_throws (d : list domain_value) (e : js_error) :
  init_decimals d = Throw e -> e = TypeError.
Proof.
  unfold init_decimals.
  destruct (getDecimalPlaces (coerce (get d 0))) as [a | e0] eqn:Ea.
  - destruct (getDecimalPlaces (coerce (get d 1))) as [b | e1] eqn:Eb.
    + discriminate.
    + cbn [bind]. intros [= <-]. now apply getDecimalPlaces_throws in Eb.
  - cbn [bind]. intros [= <-]. now apply getDecimalPlaces_throws in Ea.
Qed.

(** Once the precision is inferred, only the step count decides whether
    [_init] returns. *)
Lemma init_after_decimals (p : Props) (d : list domain_value) (decimals : nat) :
  colorDomain p = Some d ->
  init_decimals d = Ok decimals -> (decimals <= 100)%nat ->
  let n := steps (colorRangeConfig (colorPaletteUI p)) in
  (n < 0 \/ 2 ^ 32 <= n -> _init p = Throw RangeError)
  /\ (0 <= n < 2 ^ 32 -> exists l, _init p = Ok l).
Proof.
  intros Hd Edec Hdec n.
  assert (R : forall y, exists r, roundDown decimals y = Ok r).
  { intros y. destruct (roundDown_returns decimals y Hdec) as (s & _ & E).
    eauto. }
  assert (Einc : exists increment, init_increment d n = Ok increment).
  { unfold init_increment. rewrite Edec. cbn [bind]. apply R. }
  destruct Einc as [increment Einc].
  unfold _init. rewrite Hd. fold n. rewrite Edec, Einc. cbn [bind]. split.
  - intros Hn. now rewrite (new_Array_fill_throws n Hn).
  - intros Hn. unfold new_Array_fill.
    replace ((0 <=? n) && (n <? 2 ^ 32)) with true
      by (symmetry; apply andb_true_intro; split;
          [apply Z.leb_le | apply Z.ltb_lt]; lia).
    cbn [bind].
    set (g := fun (_ : value) (i : Z) =>
                if i =? n - 1 then value_of_number (coerce (get d 1))
                else VNum (round_of decimals
                             (add (ToNumber (coerce (get d 0)))
                                (mul increment (of_Z (i + 1)))))).
    exists (Array_map g 0 (repeat VUndefined (Z.to_nat n))).
    apply Array_map_throw_returns. intros v j. unfold g.
    destruct (j =? n - 1); [reflexivity |].
    unfold round_of. destruct (R (add (ToNumber (coerce (get d 0)))
                                    (mul increment (of_Z (j + 1))))) as [r ->].
    reflexivity.
Qed.

End MoreInitFacts.

(** ** Texts without spaces *)

Module SpaceFacts.
Import JsString JsNumber ColorRangeSelector Statements MoreStatements.

Lemma no_space_append (a b : string) :
  no_space (a ++ b) = no_space a && no_space b.
Proof.
  induction a as [| c a IH]; simpl; [reflexivity |].
  rewrite IH. now rewrite andb_assoc.
Qed.

Lemma no_space_take (n : nat) (s : string) :
  no_space s = true -> no_space (take n s) = true.
Proof.
  revert s; induction n as [| n IH]; intros [| c s]; simpl; auto.
  intros H. apply andb_prop in H as [Hc Hs]. now rewrite Hc, IH.
Qed.

Lemma no_space_drop (n : nat) (s : string) :
  no_space s = true -> no_space (drop n s) = true.
Proof.
  revert s; induction n as [| n IH]; intros [| c s]; simpl; auto.
  intros H. apply andb_prop in H as [Hc Hs]. now apply IH.
Qed.

Lemma no_space_repeat0 (n : nat) : no_space (repeat0 n) = true.
Proof.
  induction n as [| n IH]; simpl; auto.
Qed.

Lemma digit_char_not_space (n : Z) :
  Ascii.eqb (digit_char (n mod 10)) " " = false.
Proof.
  unfold digit_char.
  pose proof (Z.mod_pos_bound n 10 ltac:(lia)) as H.
  assert (Hk : (Z.to_nat (n mod 10) < 10)%nat) by lia.
  destruct (Z.to_nat (n mod 10)) as [| k]; [reflexivity |].
  do 9 (destruct k as [| k]; [reflexivity |]). lia.
Qed.

Lemma no_space_dec_digits_go (fuel : nat) (n : Z) (acc : string) :
  no_space acc = true -> no_space (dec_digits_go fuel n acc) = true.
Proof.
  revert n acc; induction fuel as [| fuel IH]; intros n acc H; simpl; auto.
  assert (H' : no_space (String (digit_char (n mod 10)) acc) = true).
  { cbn [no_space]. now rewrite digit_char_not_space, H. }
  destruct (n / 10 =? 0); [exact H' | now apply IH].
Qed.

Lemma no_space_dec_digits (n : Z) : no_space (dec_digits n) = true.
Proof.
  unfold dec_digits. now apply no_space_dec_digits_go.
Qed.

Lemma no_space_format_shortest (ns : Z * Z) :
  no_space (format_shortest ns) = true.
Proof.
  destruct ns as [n s]. unfold format_shortest.
  pose proof (no_space_dec_digits s) as Hd.
  pose proof (no_space_dec_digits (Z.abs (n - 1))) as He.
  set (digits := dec_digits s) in *.
  set (es := dec_digits (Z.abs (n - 1))) in *.
  assert (Hsign : no_space ((if n - 1 <? 0 then "-" else "+") ++ es) = true).
  { rewrite no_space_append, He. now destruct (n - 1 <? 0). }
  repeat match goal with
         | |- context [if ?b then _ else _] => destruct b
         end;
    rewrite ?no_space_append, ?no_space_repeat0, ?Hd, ?He,
      ?(no_space_take _ _ Hd), ?(no_space_drop _ _ Hd); reflexivity.
Qed.

(** The text of a number has no space. *)
Lemma no_space_toString (x : number) : no_space (JsNumber.toString x) = true.
Proof.
  destruct x as [s | s | | s m e]; cbn [JsNumber.toString].
  - reflexivity.
  - now destruct s.
  - reflexivity.
  - rewrite no_space_append, no_space_format_shortest. now destruct s.
Qed.

Lemma no_space_ToString (v : value) :
  spaceless v = true -> no_space (ToString v) = true.
Proof.
  destruct v as [| | x | s]; cbn [spaceless ToString]; auto.
  intros _. apply no_space_toString.
Qed.

Lemma spaceless_Array_set (a : list value) (i : nat) (v : value) :
  Forall (fun u => spaceless u = true) a -> spaceless v = true ->
  Forall (fun u => spaceless u = true) (Array_set a i v).
Proof.
  intros Ha Hv. revert a Ha; induction i as [| i IH]; intros a Ha.
  - destruct a as [| w a]; cbn [Array_set]; constructor; auto.
    now inversion Ha.
  - destruct a as [| w a]; cbn [Array_set].
    + constructor; [reflexivity | now apply IH].
    + inversion Ha; subst. constructor; auto.
Qed.

Lemma spaceless_read (a : list value) (j : Z) :
  Forall (fun u => spaceless u = true) a -> spaceless (read a j) = true.
Proof.
  intros Ha. unfold read, get. destruct (j <? 0); [reflexivity |].
  destruct (nth_error a (Z.to_nat j)) as [u |] eqn:E; [| reflexivity].
  apply nth_error_In in E. rewrite Forall_forall in Ha. now apply Ha.
Qed.

End SpaceFacts.

(** ** More on the threshold mutator *)

Module MoreMutatorFacts.
Import JsString JsNumber ColorRangeSelector Statements MoreStatements.
Import ArrayFacts StringFacts MutatorFacts SpaceFacts.

Lemma Array_set_twice (a : list value) (i : nat) (v w : value) :
  Array_set (Array_set a i v) i w = Array_set a i w.
Proof.
  revert a; induction i as [| i IH]; intros [| u a]; cbn [Array_set];
    try reflexivity; now rewrite IH.
Qed.

Lemma Array_set_commute (a : list value) (i j : nat) (v w : value) :
  i <> j ->
  Array_set (Array_set a i v) j w = Array_set (Array_set a j w) i v.
Proof.
  revert a j; induction i as [| i IH]; intros a [| j] Hij; try congruence.
  - destruct a as [| u a]; reflexivity.
  - destruct a as [| u a]; reflexivity.
  - destruct a as [| u a]; cbn [Array_set]; rewrite IH by congruence;
      reflexivity.
Qed.

Lemma Array_set_unchanged (a : list value) (i : nat) :
  (i < List.length a)%nat -> Array_set a i (read a (Z.of_nat i)) = a.
Proof.
  unfold read. rewrite get_of_nat.
  revert a; induction i as [| i IH]; intros [| u a] H; simpl in H; try lia.
  - reflexivity.
  - cbn [Array_set nth_error]. f_equal. apply IH. lia.
Qed.

Lemma Array_map_ext {A B : Type} (f g : A -> Z -> B) (i : Z) (a : list A) :
  (forall (j : nat) (c : A),
      nth_error a j = Some c -> f c (i + Z.of_nat j) = g c (i + Z.of_nat j)) ->
  Array_map f i a = Array_map g i a.
Proof.
  revert i; induction a as [| c a IH]; intros i H; cbn [Array_map].
  - reflexivity.
  - f_equal.
    + specialize (H O c eq_refl). now rewrite Z.add_0_r in H.
    + apply IH. intros j c' Hj. specialize (H (S j) c' Hj).
      now replace (i + 1 + Z.of_nat j) with (i + Z.of_nat (S j)) by lia.
Qed.

(** The props and the state after an edit, when the domain is present. *)
Lemma setColorThresholds_with_domain (index : nat) (v : value)
  (this : Component) (d : list domain_value) :
  colorDomain (props this) = Some d ->
  exists m,
    props (_setColorThresholds index v this)
    = {| colorPaletteUI := set_colorMap (colorPaletteUI (props this)) m;
         colorDomain := Some d |}
    /\ state (_setColorThresholds index v this)
       = {| isCustomDomain := isCustomDomain (state this);
            colorThresholds :=
              Array_set (colorThresholds (state this)) index v |}
    /\ current_colorMap (_setColorThresholds index v this) = Some m.
Proof.
  intros Hd. unfold _setColorThresholds, current_colorMap. rewrite Hd.
  eexists. split; [reflexivity |]. split; reflexivity.
Qed.

(** The color map after an edit depends on the component only through its
    domain, its colors and the thresholds that the labels read. *)
Lemma colorMap_determined (i i' : nat) (v v' : value) (this this' : Component)
  (d : list domain_value) :
  colorDomain (props this) = Some d ->
  colorDomain (props this') = Some d ->
  current_colors this = current_colors this' ->
  (forall k : nat,
      (k + 1 < List.length (current_colors this))%nat ->
      ToString (read (Array_set (colorThresholds (state this)) i v) (Z.of_nat k))
      = ToString
          (read (Array_set (colorThresholds (state this')) i' v') (Z.of_nat k))) ->
  current_colorMap (_setColorThresholds i v this)
  = current_colorMap (_setColorThresholds i' v' this').
Proof.
  intros Hd Hd' Hcs Hread.
  destruct (colorMap_after_set i v this d Hd) as (Et & m & Hm & Hlen & Hl).
  destruct (colorMap_after_set i' v' this' d Hd') as (Et' & m' & Hm' & Hlen' & Hl').
  cbv zeta in *. rewrite Hm, Hm'. f_equal. apply nth_error_ext. intros k.
  destruct (nth_error (current_colors this) k) as [c |] eqn:Ec.
  - rewrite (Hl k c Ec). rewrite Hcs in Ec. rewrite (Hl' k c Ec).
    rewrite Et, Et', <- Hcs.
    assert (Hk : (k < List.length (current_colors this))%nat).
    { apply nth_error_Some. rewrite Hcs. congruence. }
    set (T := Array_set (colorThresholds (state this)) i v) in *.
    set (T' := Array_set (colorThresholds (state this')) i' v') in *.
    assert (EA : ToString (if (k =? 0)%nat then value_of_domain (get d 0)
                           else read T (Z.of_nat k - 1))
                 = ToString (if (k =? 0)%nat then value_of_domain (get d 0)
                             else read T' (Z.of_nat k - 1))).
    { destruct k as [| k]; cbn [Nat.eqb]; [reflexivity |].
      replace (Z.of_nat (S k) - 1) with (Z.of_nat k) by lia.
      apply Hread. lia. }
    assert (EB : ToString
                   (if (S k =? List.length (current_colors this))%nat
                    then value_of_domain (get d (Z.of_nat (List.length d) - 1))
                    else read T (Z.of_nat k))
                 = ToString
                     (if (S k =? List.length (current_colors this))%nat
                      then value_of_domain (get d (Z.of_nat (List.length d) - 1))
                      else read T' (Z.of_nat k))).
    { destruct (Nat.eqb_spec (S k) (List.length (current_colors this)));
        [reflexivity |].
      apply Hread. lia. }
    now rewrite EA, EB.
  - pose proof Ec as Ec'. apply nth_error_None in Ec.
    rewrite Hcs in Ec'. apply nth_error_None in Ec'.
    rewrite (proj2 (nth_error_None m k)) by lia.
    rewrite (proj2 (nth_error_None m' k)) by lia. reflexivity.
Qed.

(** Reading the thresholds back from the color map an edit has built. *)
Lemma fromColorMap_after_set (index : nat) (v : value) (this : Component)
  (d : list domain_value) :
  colorDomain (props this) = Some d ->
  spaceless (value_of_domain (get d 0)) = true ->
  spaceless v = true ->
  Forall (fun u => spaceless u = true) (colorThresholds (state this)) ->
  let this' := _setColorThresholds index v this in
  let t' := colorThresholds (state this') in
  exists l,
    _fromColorMap (props this') = Ok l
    /\ List.length l = (List.length (current_colors this) - 1)%nat
    /\ forall j : nat,
        (j + 1 < List.length (current_colors this))%nat ->
        nth_error l j = Some (VStr (ToString (read t' (Z.of_nat j)))).
Proof.
  intros Hd Hmin Hv Ht this' t'.
  destruct (colorMap_after_set index v this d Hd) as (Et & m & Hm & Hlen & Hl).
  fold this' in Et, Hm, Hl. fold t' in Et, Hl.
  assert (Hsp : forall j, spaceless (read t' j) = true).
  { intros j. rewrite Et. apply spaceless_read.
    now apply spaceless_Array_set. }
  unfold _fromColorMap. unfold current_colorMap in Hm. rewrite Hm.
  eexists. split; [reflexivity |]. split.
  - now rewrite Array_pop_length, length_map, Hlen.
  - intros j Hj.
    rewrite Array_pop_nth by (rewrite length_map, Hlen; exact Hj).
    destruct (nth_error (current_colors this) j) as [c |] eqn:Ec;
      [| apply nth_error_None in Ec; lia].
    rewrite nth_error_map, (Hl j c Ec). cbn [option_map getEditableThreshold].
    replace (S j =? List.length (current_colors this))%nat with false
      by (symmetry; apply Nat.eqb_neq; lia).
    rewrite split_label.
    + reflexivity.
    + apply no_space_ToString. destruct (j =? 0)%nat; [exact Hmin | apply Hsp].
    + apply no_space_ToString. apply Hsp.
Qed.

End MoreMutatorFacts.

(** ** The catalog constants and the palette group *)

Module CatalogFacts.
Import JsString JsNumber ColorRangeSelector Statements MoreStatements Catalog.

Section Uniq.
Context {A : Type} (eqb : A -> A -> bool).
Hypothesis eqb_eq : forall x y, eqb x y = true <-> x = y.

Lemma existsb_eqb_In (x : A) (seen : list A) :
  existsb (eqb x) seen = true <-> In x seen.
Proof.
  rewrite existsb_exists. split.
  - intros (y & Hy & E). apply eqb_eq in E. now subst.
  - intros H. exists x. split; [exact H | now apply eqb_eq].
Qed.

Lemma uniq_go_In (seen a : list A) (x : A) :
  In x (uniq_go eqb seen a) <-> In x a /\ ~ In x seen.
Proof.
  revert seen; induction a as [| y a IH]; intros seen; cbn [uniq_go].
  - simpl. tauto.
  - destruct (existsb (eqb y) seen) eqn:E.
    + apply existsb_eqb_In in E. rewrite IH. simpl. split.
      * intros [H1 H2]. auto.
      * intros [[-> | H1] H2]; [contradiction | auto].
    + assert (Hy : ~ In y seen).
      { intros H. apply existsb_eqb_In in H. congruence. }
      simpl. rewrite IH. simpl. split.
      * intros [-> | [H1 H2]]; auto.
      * intros [[-> | H1] H2]; auto.
        destruct (existsb (eqb x) [y]) eqn:Exy.
        -- left. simpl in Exy. rewrite orb_false_r in Exy.
           apply eqb_eq in Exy. congruence.
        -- right. split; [exact H1 |]. intros [-> | H]; [| contradiction].
           simpl in Exy. rewrite orb_false_r in Exy.
           assert (eqb x x = true) by now apply eqb_eq. congruence.
Qed.

Lemma uniq_go_NoDup (seen a : list A) : NoDup (uniq_go eqb seen a).
Proof.
  revert seen; induction a as [| y a IH]; intros seen; cbn [uniq_go].
  - constructor.
  - destruct (existsb (eqb y) seen); [apply IH |].
    constructor; [| apply IH].
    rewrite uniq_go_In. simpl. tauto.
Qed.

Lemma uniq_In (a : list A) (x : A) : In x (uniq eqb a) <-> In x a.
Proof.
  unfold uniq. rewrite uniq_go_In. simpl. tauto.
Qed.

Lemma uniq_NoDup (a : list A) : NoDup (uniq eqb a).
Proof.
  apply uniq_go_NoDup.
Qed.
End Uniq.

Lemma sort_insert_perm {A : Type} (cmp : A -> A -> Z) (x : A) (a : list A) :
  Permutation (sort_insert cmp x a) (x :: a).
Proof.
  induction a as [| y a IH]; cbn [sort_insert]; [reflexivity |].
  destruct (0 <? cmp x y); [| reflexivity].
  rewrite IH. apply perm_swap.
Qed.

Lemma Array_sort_perm {A : Type} (cmp : A -> A -> Z) (a : list A) :
  Permutation (Array_sort cmp a) a.
Proof.
  induction a as [| x a IH]; cbn [Array_sort]; [reflexivity |].
  rewrite sort_insert_perm. now constructor.
Qed.

Section Sorted.
Variable cmp : Z -> Z -> Z.
Hypothesis cmp_gt : forall a b, 0 < cmp a b <-> b < a.

Lemma sort_insert_sorted (x : Z) (a : list Z) :
  StronglySorted Z.le a -> StronglySorted Z.le (sort_insert cmp x a).
Proof.
  induction a as [| y a IH]; intros Ha; cbn [sort_insert].
  - repeat constructor.
  - apply StronglySorted_inv in Ha as [Ha Hy].
    destruct (Z.ltb_spec 0 (cmp x y)) as [H | H].
    + apply (proj1 (cmp_gt x y)) in H. constructor; [now apply IH |].
      apply (Permutation_Forall (Permutation_sym (sort_insert_perm cmp x a))).
      constructor; [lia | exact Hy].
    + assert (x <= y).
      { destruct (Z.le_gt_cases x y) as [L | L]; [exact L |].
        apply (proj2 (cmp_gt x y)) in L. lia. }
      constructor; [now constructor |].
      constructor; [assumption |].
      eapply Forall_impl; [| exact Hy]. intros z Hz. simpl in Hz. lia.
Qed.

Lemma Array_sort_sorted (a : list Z) : StronglySorted Z.le (Array_sort cmp a).
Proof.
  induction a as [| x a IH]; cbn [Array_sort]; [constructor |].
  now apply sort_insert_sorted.
Qed.
End Sorted.

Lemma sorted_NoDup_increasing (a : list Z) :
  StronglySorted Z.le a -> NoDup a -> StronglySorted Z.lt a.
Proof.
  induction a as [| x a IH]; intros Hs Hn; [constructor |].
  apply StronglySorted_inv in Hs as [Hs Hx].
  apply NoDup_cons_iff in Hn as [Hnx Hn].
  constructor; [now apply IH |].
  rewrite Forall_forall in *. intros z Hz. specialize (Hx z Hz).
  assert (z <> x) by (intros ->; contradiction). lia.
Qed.

Lemma as_strings_In (a : list (option string)) (t : string) :
  In t (as_strings a) <-> In (Some t) a.
Proof.
  unfold as_strings. rewrite in_flat_map. split.
  - intros ([s |] & H1 & H2); simpl in H2; [| contradiction].
    destruct H2 as [-> | []]. exact H1.
  - intros H. exists (Some t). split; [exact H | now left].
Qed.

Lemma ALL_STEPS_In (numberSort : Z -> Z -> Z) (C : list ColorRange) (s : Z) :
  In s (ALL_STEPS numberSort C)
  <-> exists e, In e C /\ Z.of_nat (List.length (colors e)) = s.
Proof.
  unfold ALL_STEPS. split.
  - intros H. apply (Permutation_in _ (Array_sort_perm numberSort _)) in H.
    apply (proj1 (uniq_In Z.eqb Z.eqb_eq _ _)) in H. apply in_map_iff in H.
    destruct H as (e & He & Hin). eauto.
  - intros (e & Hin & He).
    apply (Permutation_in _ (Permutation_sym (Array_sort_perm numberSort _))).
    apply (proj2 (uniq_In Z.eqb Z.eqb_eq _ _)). apply in_map_iff. eauto.
Qed.

Lemma ALL_TYPES_In (C : list ColorRange) (t : string) :
  In t (ALL_TYPES C)
  <-> t = "all" \/ t = "custom"
      \/ (t <> "" /\ exists e, In e C /\ type e = Some t).
Proof.
  unfold ALL_TYPES. rewrite (uniq_In String.eqb String.eqb_eq), in_app_iff.
  rewrite as_strings_In, filter_In, in_map_iff. simpl. split.
  - intros [[(e & He & Hin) Ht] | [<- | [<- | []]]]; auto.
    right. right. split; [| eauto]. intros ->. discriminate.
  - intros [-> | [-> | (Ht & e & Hin & He)]]; auto.
    left. split; [eauto |]. destruct t; [congruence | reflexivity].
Qed.

(** The entries the filter returns. *)
Lemma filteredColorRange_In (C : list ColorRange) (p : Props) (e : ColorRange) :
  In e (filteredColorRange C p)
  <-> In e C
      /\ matches (config_type (colorRangeConfig (colorPaletteUI p)))
           (steps (colorRangeConfig (colorPaletteUI p))) e.
Proof.
  unfold filteredColorRange, matches, strict_eq_type.
  rewrite filter_In, andb_true_iff, orb_true_iff, Z.eqb_eq, String.eqb_eq.
  destruct (type e) as [u |].
  - rewrite String.eqb_eq. split.
    + intros (H & [E | E] & Hs); subst; auto.
    + intros (H & [E | E] & Hs); [| injection E as E]; subst; auto.
  - split.
    + intros (H & [E | E] & Hs); [subst; auto | discriminate].
    + intros (H & [E | E] & Hs); [subst; auto | discriminate].
Qed.

End CatalogFacts.

Module GroupFacts.
Import JsString JsNumber ColorRangeSelector Statements MoreStatements.
Import ColorPaletteGroup ArrayFacts.

(** The swatch at position [j]. *)
Lemma ColorPaletteGroup_nth
  (reverseColorRange : bool -> ColorRange -> ColorRange)
  (p : ColorPaletteGroupProps) (j : nat) (sw : Swatch) :
  nth_error (ColorPaletteGroup reverseColorRange p) j = Some sw ->
  exists c,
    nth_error (colorRanges p) j = Some c
    /\ onClick sw
       = (if Boolean (group_reversed p) then reverseColorRange true c else c)
    /\ palette_colors sw = colors c
    /\ isReversed sw = group_reversed p
    /\ isSelected sw
       = String.eqb (name c) (name (selected p))
         && strict_eq_flag (group_reversed p)
              (Boolean (reversed (selected p))).
Proof.
  unfold ColorPaletteGroup. rewrite Array_map_nth.
  destruct (nth_error (colorRanges p) j) as [c |]; [| discriminate].
  cbn [option_map]. intros [= <-]. exists c. cbn. auto.
Qed.


Lemma strict_eq_flag_true (r : option bool) (b : bool) :
  strict_eq_flag r b = true <-> r = Some b.
Proof.
  unfold strict_eq_flag. destruct r as [b' |]; [| split; discriminate].
  rewrite Bool.eqb_true_iff. split; congruence.
Qed.

Lemma isSelected_iff
  (reverseColorRange : bool -> ColorRange -> ColorRange)
  (p : ColorPaletteGroupProps) (j : nat) (sw : Swatch) (c : ColorRange) :
  nth_error (ColorPaletteGroup reverseColorRange p) j = Some sw ->
  nth_error (colorRanges p) j = Some c ->
  isSelected sw = true
  <-> name c = name (selected p)
      /\ group_reversed p = Some (Boolean (reversed (selected p))).
Proof.
  intros Hsw Hc.
  destruct (ColorPaletteGroup_nth _ _ _ _ Hsw) as (c' & Hc' & _ & _ & _ & ->).
  rewrite Hc in Hc'. injection Hc' as <-.
  now rewrite andb_true_iff, String.eqb_eq, strict_eq_flag_true.
Qed.

End GroupFacts.

(** ** Properties beyond the claims *)

Module More.
Import JsString JsNumber ColorRangeSelector Statements MoreStatements.
Import ArrayFacts StringFacts NumberFacts LengthFacts MutatorFacts InitFacts.
Import MoreInitFacts SpaceFacts MoreMutatorFacts.
Import Catalog ColorPaletteGroup Render CatalogFacts GroupFacts.

(** X1. Whatever the domain (numbers or strings), a sequence that [_init]
    returns for a domain that is present has exactly [steps] values, with
    [steps] between 0 and 2^32 - 1; its last value is the max as [_init]
    reads it (the parsed integer for a string), and every value before the
    last is a number. *)
Theorem init_returns_steps_values
  (p : Props) (d : list domain_value) (l : list value) :
  colorDomain p = Some d ->
  _init p = Ok l ->
  let n := steps (colorRangeConfig (colorPaletteUI p)) in
  0 <= n < 2 ^ 32
  /\ Z.of_nat (List.length l) = n
  /\ (1 <= n -> read l (n - 1) = value_of_number (coerce (get d 1)))
  /\ (forall i, 0 <= i < n - 1 -> exists x, read l i = VNum x).
Proof.
  intros Hd H n.
  destruct (init_inv p d l Hd H) as (decimals & increment & _ & _ & Hn & Hlen & Hi).
  fold n in Hn, Hlen, Hi.
  split; [exact Hn |]. split; [exact Hlen |]. split.
  - intros H1. specialize (Hi (n - 1) ltac:(lia)).
    now rewrite Z.eqb_refl in Hi.
  - intros i Hlt. specialize (Hi i ltac:(lia)).
    replace (i =? n - 1) with false in Hi by (symmetry; apply Z.eqb_neq; lia).
    destruct Hi as (r & _ & Hr). eauto.
Qed.

Lemma init_returns_steps_values_witness :
  Z.of_nat
    (List.length (map (fun z => VNum (of_Z z)) [3; 6; 9; 10])) = 4.
Proof.
  apply (init_returns_steps_values
           (make_props (Some [DStr "0"; DStr "10.25"]) 4 [] None)
           [DStr "0"; DStr "10.25"]
           (map (fun z => VNum (of_Z z)) [3; 6; 9; 10])).
  - reflexivity.
  - vm_compute. reflexivity.
Defined.

(** X2. [_init] throws a TypeError for every domain that is present but
    has fewer than two elements (the empty array, a single bound), and for
    every domain whose first or second element is the number NaN or an
    infinity, whatever the step count. *)
Theorem init_throws_on_short_or_infinite_domain
  (p : Props) (d : list domain_value) :
  colorDomain p = Some d ->
  (List.length d < 2)%nat
  \/ (exists i x, (i = 0 \/ i = 1) /\ get d i = Some (DNum x)
                 /\ (x = NaN \/ exists s, x = S754_infinity s)) ->
  _init p = Throw TypeError.
Proof.
  intros Hd H.
  assert (E : exists e, init_decimals d = Throw e).
  { unfold init_decimals. destruct H as [Hlen | (i & x & Hi & Hx & Hbad)].
    - assert (E1 : get d 1 = None).
      { unfold get. cbn. apply nth_error_None. lia. }
      rewrite E1. cbn [coerce].
      destruct (getDecimalPlaces (coerce (get d 0))); cbn; eauto.
    - assert (Ex : getDecimalPlaces (Some x) = Throw TypeError).
      { destruct Hbad as [-> | [s ->]];
          [reflexivity | apply getDecimalPlaces_infinity]. }
      destruct Hi as [-> | ->]; rewrite Hx; cbn [coerce]; rewrite Ex.
      + cbn. eauto.
      + destruct (getDecimalPlaces (coerce (get d 0))); cbn; eauto. }
  destruct E as [e E]. pose proof (init_decimals_throws d e E) as ->.
  unfold _init. now rewrite Hd, E.
Qed.

Lemma init_throws_on_short_or_infinite_domain_witness :
  _init (make_props (Some [DNum (of_Z 5)]) 3 [] None) = Throw TypeError.
Proof.
  apply (init_throws_on_short_or_infinite_domain
           (make_props (Some [DNum (of_Z 5)]) 3 [] None) [DNum (of_Z 5)]).
  - reflexivity.
  - left. simpl. lia.
Defined.

(** X3. For a domain of strings and binary64 numbers from which the
    precision can be inferred, the step count alone decides the outcome of
    [_init]: a negative step count or one of 2^32 or more makes it throw a
    RangeError, any other makes it return, and 0 steps give the empty
    sequence. *)
Theorem init_outcome_by_step_count
  (p : Props) (d : list domain_value) (decimals : nat) :
  colorDomain p = Some d ->
  domain_of_numbers d ->
  init_decimals d = Ok decimals ->
  let n := steps (colorRangeConfig (colorPaletteUI p)) in
  (_init p = Throw RangeError <-> n < 0 \/ 2 ^ 32 <= n)
  /\ ((exists l, _init p = Ok l) <-> 0 <= n < 2 ^ 32)
  /\ (n = 0 -> _init p = Ok []).
Proof.
  intros Hd Hwf Edec n.
  pose proof (init_decimals_bound d decimals Hwf Edec) as Hdec.
  destruct (init_after_decimals p d decimals Hd Edec ltac:(lia)) as [Hout Hin].
  fold n in Hout, Hin.
  assert (Hcase : n < 0 \/ 2 ^ 32 <= n \/ 0 <= n < 2 ^ 32) by lia.
  split; [| split].
  - split; [| exact Hout]. intros E.
    destruct Hcase as [Hc | [Hc | Hc]]; auto.
    destruct (Hin Hc) as [l El]. congruence.
  - split; [| exact Hin]. intros [l El].
    destruct Hcase as [Hc | [Hc | Hc]]; auto;
      rewrite Hout in El by auto; discriminate.
  - intros H0. destruct (Hin ltac:(lia)) as [l El].
    destruct (init_inv p d l Hd El) as (_ & _ & _ & _ & _ & Hlen & _).
    fold n in Hlen. destruct l; [exact El | simpl in Hlen; lia].
Qed.

Lemma init_outcome_by_step_count_witness :
  _init (make_props (Some [DStr "3"; DNum (of_Z 10)]) (-1) [] None)
  = Throw RangeError.
Proof.
  apply (proj1 (init_outcome_by_step_count
                  (make_props (Some [DStr "3"; DNum (of_Z 10)]) (-1) [] None)
                  [DStr "3"; DNum (of_Z 10)] O eq_refl
                  ltac:(intros x [H | [H | []]];
                        [discriminate | injection H as <-; reflexivity])
                  eq_refl)).
  left. reflexivity.
Defined.

(** X4. When the inferred precision is 0 (two integer bounds, or any two
    strings that [parseInt] reads as numbers), no value that [_init] returns
    before the last has a fractional part: each is a number that is an
    integer, an infinity or NaN. *)
Theorem init_integer_thresholds
  (p : Props) (d : list domain_value) (l : list value) :
  colorDomain p = Some d ->
  init_decimals d = Ok O ->
  _init p = Ok l ->
  let n := steps (colorRangeConfig (colorPaletteUI p)) in
  forall i, 0 <= i < n - 1 ->
    exists x, read l i = VNum x /\ integral_if_finite x.
Proof.
  intros Hd Edec H n i Hi.
  destruct (init_inv p d l Hd H) as (decimals & increment & Edec' & _ & _ & _ & Hv).
  fold n in Hv. rewrite Edec in Edec'. injection Edec' as <-.
  specialize (Hv i ltac:(lia)).
  replace (i =? n - 1) with false in Hv by (symmetry; apply Z.eqb_neq; lia).
  destruct Hv as (r & Hr & Hread). exists r. split; [exact Hread |].
  now apply roundDown_0_integral in Hr.
Qed.

Lemma init_integer_thresholds_witness :
  exists x,
    read (map (fun z => VNum (of_Z z)) [3; 6; 9; 10]) 1 = VNum x
    /\ integral_if_finite x.
Proof.
  apply (init_integer_thresholds
           (make_props (Some [DStr "0"; DStr "10.25"]) 4 [] None)
           [DStr "0"; DStr "10.25"]
           (map (fun z => VNum (of_Z z)) [3; 6; 9; 10])).
  - reflexivity.
  - reflexivity.
  - vm_compute. reflexivity.
  - simpl. lia.
Defined.

(** X5. Edits compose as assignments do: a second edit at the same index
    overrides the first, and edits at different indices can be swapped.  In
    both cases the props (with the rebuilt color map) and the state are the
    same; only the number of callback calls tells the runs apart. *)
Theorem setColorThresholds_compose
  (i j : nat) (v w : value) (this : Component) :
  (props (_setColorThresholds i w (_setColorThresholds i v this))
   = props (_setColorThresholds i w this)
   /\ state (_setColorThresholds i w (_setColorThresholds i v this))
      = state (_setColorThresholds i w this))
  /\ (i <> j ->
      props (_setColorThresholds j w (_setColorThresholds i v this))
      = props (_setColorThresholds i v (_setColorThresholds j w this))
      /\ state (_setColorThresholds j w (_setColorThresholds i v this))
         = state (_setColorThresholds i v (_setColorThresholds j w this))).
Proof.
  destruct this as [[[[nm ty cs rv cm] sk cfg] [d |]] [icd t] lg];
    [| repeat split; reflexivity].
  unfold _setColorThresholds.
  cbn [props state colorDomain colorPaletteUI customPalette colors
       colorThresholds isCustomDomain set_colorMap name type reversed
       showSketcher colorRangeConfig].
  split.
  - rewrite Array_set_twice. split; reflexivity.
  - intros Hij. rewrite (Array_set_commute t i j v w Hij). split; reflexivity.
Qed.

Lemma setColorThresholds_compose_witness :
  let this :=
    make_component
      (make_props (Some [DNum (of_Z 0); DNum (of_Z 10)]) 3
         [VStr "#f00"; VStr "#0f0"; VStr "#00f"] None)
      [VNum (of_Z 3); VNum (of_Z 7)] in
  state (_setColorThresholds 1 (VStr "8") (_setColorThresholds 0 (VStr "2") this))
  = state (_setColorThresholds 0 (VStr "2") (_setColorThresholds 1 (VStr "8") this)).
Proof.
  apply (proj2 (setColorThresholds_compose 0 1 (VStr "2") (VStr "8")
                  (make_component
                     (make_props (Some [DNum (of_Z 0); DNum (of_Z 10)]) 3
                        [VStr "#f00"; VStr "#0f0"; VStr "#00f"] None)
                     [VNum (of_Z 3); VNum (of_Z 7)]))).
  lia.
Defined.

(** X6. Reading back what an edit wrote: when the domain's min, the raw
    value and the thresholds are numbers, null, undefined or strings without
    a space, [_fromColorMap] on the props that [_setColorThresholds] leaves
    returns one value less than there are colors, and the value at each
    position is the text of the threshold at that position. *)
Theorem fromColorMap_reads_back_thresholds
  (index : nat) (v : value) (this : Component) (d : list domain_value) :
  colorDomain (props this) = Some d ->
  spaceless (value_of_domain (get d 0)) = true ->
  spaceless v = true ->
  Forall (fun u => spaceless u = true) (colorThresholds (state this)) ->
  let this' := _setColorThresholds index v this in
  let t' := colorThresholds (state this') in
  exists l,
    _fromColorMap (props this') = Ok l
    /\ List.length l = (List.length (current_colors this) - 1)%nat
    /\ forall j : nat,
        (j + 1 < List.length (current_colors this))%nat ->
        nth_error l j = Some (VStr (ToString (read t' (Z.of_nat j)))).
Proof.
  exact (fromColorMap_after_set index v this d).
Qed.

Lemma fromColorMap_reads_back_thresholds_witness :
  let this :=
    make_component
      (make_props (Some [DNum (of_Z 0); DNum (of_Z 10)]) 3
         [VStr "#f00"; VStr "#0f0"; VStr "#00f"] None)
      [VNum (of_Z 3); VNum (of_Z 7)] in
  exists l,
    _fromColorMap (props (_setColorThresholds 0 (VStr "2.5") this)) = Ok l
    /\ List.length l = 2%nat.
Proof.
  destruct (fromColorMap_reads_back_thresholds 0 (VStr "2.5")
              (make_component
                 (make_props (Some [DNum (of_Z 0); DNum (of_Z 10)]) 3
                    [VStr "#f00"; VStr "#0f0"; VStr "#00f"] None)
                 [VNum (of_Z 3); VNum (of_Z 7)])
              [DNum (of_Z 0); DNum (of_Z 10)] eq_refl eq_refl eq_refl
              ltac:(repeat constructor))
    as (l & Hl & Hlen & _).
  exists l. split; [exact Hl | exact Hlen].
Defined.

(** X7. The ranges of a rebuilt color map are contiguous: the upper bound
    in the label of each pair is the lower bound in the label of the next
    pair, and the pairs carry the colors of the palette in their order. *)
Theorem setColorThresholds_contiguous_ranges
  (index : nat) (v : value) (this : Component) (d : list domain_value) :
  colorDomain (props this) = Some d ->
  exists m,
    current_colorMap (_setColorThresholds index v this) = Some m
    /\ forall (j : nat) (c c' : value),
        nth_error (current_colors this) j = Some c ->
        nth_error (current_colors this) (S j) = Some c' ->
        exists lo bound hi,
          nth_error m j = Some (Some [VStr (lo ++ " to " ++ bound); c])
          /\ nth_error m (S j) = Some (Some [VStr (bound ++ " to " ++ hi); c']).
Proof.
  intros Hd.
  destruct (colorMap_after_set index v this d Hd) as (_ & m & Hm & _ & Hl).
  exists m. split; [exact Hm |].
  intros j c c' Hc Hc'.
  assert (Hlt : (S j < List.length (current_colors this))%nat).
  { apply nth_error_Some. congruence. }
  do 3 eexists. split.
  - rewrite (Hl j c Hc).
    replace (S j =? List.length (current_colors this))%nat with false
      by (symmetry; apply Nat.eqb_neq; lia).
    reflexivity.
  - rewrite (Hl (S j) c' Hc'). cbn [Nat.eqb].
    replace (Z.of_nat (S j) - 1) with (Z.of_nat j) by lia.
    reflexivity.
Qed.

Lemma setColorThresholds_contiguous_ranges_witness :
  let this :=
    make_component
      (make_props (Some [DNum (of_Z 0); DNum (of_Z 10)]) 3
         [VStr "#f00"; VStr "#0f0"; VStr "#00f"] None)
      [VNum (of_Z 3); VNum (of_Z 7)] in
  exists m, current_colorMap (_setColorThresholds 0 (VStr "2") this) = Some m.
Proof.
  destruct (setColorThresholds_contiguous_ranges 0 (VStr "2")
              (make_component
                 (make_props (Some [DNum (of_Z 0); DNum (of_Z 10)]) 3
                    [VStr "#f00"; VStr "#0f0"; VStr "#00f"] None)
                 [VNum (of_Z 3); VNum (of_Z 7)])
              [DNum (of_Z 0); DNum (of_Z 10)] eq_refl) as (m & Hm & _).
  exists m. exact Hm.
Defined.

(** X8. An edit at the last color's position or beyond changes no label:
    the rebuilt color map does not depend on the raw value written there.
    (The labels read the thresholds before the last color's position
    only.) *)
Theorem setColorThresholds_ignores_last_position
  (index : nat) (v w : value) (this : Component) :
  (List.length (current_colors this) <= S index)%nat ->
  current_colorMap (_setColorThresholds index v this)
  = current_colorMap (_setColorThresholds index w this).
Proof.
  intros Hi. destruct (colorDomain (props this)) as [d |] eqn:Hd.
  - apply (colorMap_determined index index v w this this d Hd Hd eq_refl).
    intros k Hk. rewrite !read_Array_set_other by lia. reflexivity.
  - unfold _setColorThresholds. now rewrite Hd.
Qed.

Lemma setColorThresholds_ignores_last_position_witness :
  let this :=
    make_component
      (make_props (Some [DNum (of_Z 0); DNum (of_Z 10)]) 3
         [VStr "#f00"; VStr "#0f0"; VStr "#00f"] None)
      [VNum (of_Z 3); VNum (of_Z 7); VNum (of_Z 10)] in
  current_colorMap (_setColorThresholds 2 (VStr "9") this)
  = current_colorMap (_setColorThresholds 2 (VStr "11") this).
Proof.
  apply (setColorThresholds_ignores_last_position 2 (VStr "9") (VStr "11")
           (make_component
              (make_props (Some [DNum (of_Z 0); DNum (of_Z 10)]) 3
                 [VStr "#f00"; VStr "#0f0"; VStr "#00f"] None)
              [VNum (of_Z 3); VNum (of_Z 7); VNum (of_Z 10)])).
  simpl. lia.
Defined.

(** X9. Mounting again on the props an edit has left, and entering again
    the threshold that the new component shows at a position, rebuilds the
    same color map: when the domain's min, the raw value and the thresholds
    have texts without a space, the constructor returns (with the
    custom-domain flag set) and such an edit leaves the props as they
    were. *)
Theorem remount_keeps_colorMap
  (index : nat) (v : value) (this : Component) (d : list domain_value) :
  colorDomain (props this) = Some d ->
  spaceless (value_of_domain (get d 0)) = true ->
  spaceless v = true ->
  Forall (fun u => spaceless u = true) (colorThresholds (state this)) ->
  let this' := _setColorThresholds index v this in
  exists st,
    initial_state (props this') = Ok st
    /\ isCustomDomain st = true
    /\ forall j : nat,
        (j + 1 < List.length (current_colors this))%nat ->
        props (_setColorThresholds j (read (colorThresholds st) (Z.of_nat j))
                 (mounted (props this') st))
        = props this'.
Proof.
  intros Hd Hmin Hv Ht this'.
  destruct (fromColorMap_after_set index v this d Hd Hmin Hv Ht)
    as (l & El & Hlen & Hl).
  fold this' in El, Hl.
  destruct (setColorThresholds_with_domain index v this d Hd)
    as (m & Ep & Es & Em).
  fold this' in Ep, Es, Em.
  assert (Emap : colorMap (customPalette (colorPaletteUI (props this'))) = Some m)
    by exact Em.
  exists {| isCustomDomain := true; colorThresholds := l |}.
  split; [unfold initial_state; now rewrite Emap, El |].
  split; [reflexivity |].
  intros j Hj.
  set (st := {| isCustomDomain := true; colorThresholds := l |}).
  set (again := mounted (props this') st).
  assert (Hd' : colorDomain (props again) = Some d)
    by (unfold again, mounted; cbn [props]; now rewrite Ep).
  destruct (setColorThresholds_with_domain j (read l (Z.of_nat j)) again d Hd')
    as (m2 & Ep2 & _ & Em2).
  cbn [colorThresholds st] in *.
  assert (E : Some m2 = Some m).
  { rewrite <- Em2, <- Em.
    apply (colorMap_determined j index (read l (Z.of_nat j)) v again this d
             Hd' Hd).
    - unfold again, mounted, current_colors. cbn [props]. now rewrite Ep.
    - intros k Hk.
      assert (Hcs : current_colors again = current_colors this)
        by (unfold again, mounted, current_colors; cbn [props]; now rewrite Ep).
      rewrite Hcs in Hk.
      unfold again, mounted. cbn [state colorThresholds].
      rewrite Array_set_unchanged by lia.
      unfold read at 1. rewrite get_of_nat, (Hl k Hk). cbn [ToString].
      now rewrite Es. }
  injection E as ->. rewrite Ep2. unfold again, mounted. cbn [props].
  rewrite Ep. reflexivity.
Qed.

Lemma remount_keeps_colorMap_witness :
  let this :=
    make_component
      (make_props (Some [DNum (of_Z 0); DNum (of_Z 10)]) 3
         [VStr "#f00"; VStr "#0f0"; VStr "#00f"] None)
      [VNum (of_Z 3); VNum (of_Z 7)] in
  exists st,
    initial_state (props (_setColorThresholds 0 (VStr "2.5") this)) = Ok st
    /\ isCustomDomain st = true.
Proof.
  destruct (remount_keeps_colorMap 0 (VStr "2.5")
              (make_component
                 (make_props (Some [DNum (of_Z 0); DNum (of_Z 10)]) 3
                    [VStr "#f00"; VStr "#0f0"; VStr "#00f"] None)
                 [VNum (of_Z 3); VNum (of_Z 7)])
              [DNum (of_Z 0); DNum (of_Z 10)] eq_refl eq_refl eq_refl
              ltac:(repeat constructor))
    as (st & Hst & Hflag & _).
  exists st. split; [exact Hst | exact Hflag].
Defined.

(** X10. [ALL_TYPES] has no duplicate, always offers "all" and "custom",
    and besides these holds exactly the non-empty types of the catalog's
    entries: entries without a type or with the empty type add nothing. *)
Theorem ALL_TYPES_members (COLOR_RANGES : list ColorRange) :
  NoDup (ALL_TYPES COLOR_RANGES)
  /\ In "all" (ALL_TYPES COLOR_RANGES)
  /\ In "custom" (ALL_TYPES COLOR_RANGES)
  /\ forall t,
      In t (ALL_TYPES COLOR_RANGES)
      <-> t = "all" \/ t = "custom"
          \/ (t <> "" /\ exists e, In e COLOR_RANGES /\ type e = Some t).
Proof.
  split; [apply (uniq_NoDup String.eqb String.eqb_eq) |].
  split; [apply ALL_TYPES_In; auto |].
  split; [apply ALL_TYPES_In; auto |].
  apply ALL_TYPES_In.
Qed.

(** X11. Whatever the comparator, [ALL_STEPS] has no duplicate and holds
    exactly the color counts of the catalog's entries; when the comparator
    is positive exactly on pairs in descending order (as a difference is),
    [ALL_STEPS] is strictly increasing. *)
Theorem ALL_STEPS_members
  (numberSort : Z -> Z -> Z) (COLOR_RANGES : list ColorRange) :
  NoDup (ALL_STEPS numberSort COLOR_RANGES)
  /\ (forall s,
        In s (ALL_STEPS numberSort COLOR_RANGES)
        <-> exists e,
            In e COLOR_RANGES /\ Z.of_nat (List.length (colors e)) = s)
  /\ ((forall a b, 0 < numberSort a b <-> b < a) ->
      StronglySorted Z.lt (ALL_STEPS numberSort COLOR_RANGES)).
Proof.
  assert (N : NoDup (ALL_STEPS numberSort COLOR_RANGES)).
  { unfold ALL_STEPS.
    apply (Permutation_NoDup (Permutation_sym (Array_sort_perm numberSort _))).
    apply (uniq_NoDup Z.eqb Z.eqb_eq). }
  split; [exact N |]. split; [apply ALL_STEPS_In |].
  intros H. apply sorted_NoDup_increasing; [| exact N].
  unfold ALL_STEPS. now apply Array_sort_sorted.
Qed.

Lemma ALL_STEPS_members_witness :
  StronglySorted Z.lt
    (ALL_STEPS Z.sub
       [catalog_entry "a" (Some "sequential") [VStr "#1"; VStr "#2"; VStr "#3"];
        catalog_entry "b" (Some "diverging") [VStr "#1"; VStr "#2"];
        catalog_entry "c" None [VStr "#1"; VStr "#2"; VStr "#3"]]).
Proof.
  apply (proj2 (proj2 (ALL_STEPS_members Z.sub
           [catalog_entry "a" (Some "sequential") [VStr "#1"; VStr "#2"; VStr "#3"];
            catalog_entry "b" (Some "diverging") [VStr "#1"; VStr "#2"];
            catalog_entry "c" None [VStr "#1"; VStr "#2"; VStr "#3"]]))).
  intros a b. lia.
Defined.

(** X12. With the type "all", the filter returns at least one palette
    exactly for the step counts that [ALL_STEPS] offers. *)
Theorem offered_steps_have_palettes
  (numberSort : Z -> Z -> Z) (COLOR_RANGES : list ColorRange) (p : Props) :
  config_type (colorRangeConfig (colorPaletteUI p)) = "all" ->
  filteredColorRange COLOR_RANGES p <> []
  <-> In (steps (colorRangeConfig (colorPaletteUI p)))
        (ALL_STEPS numberSort COLOR_RANGES).
Proof.
  intros Ht. rewrite ALL_STEPS_In. split.
  - intros H. destruct (filteredColorRange COLOR_RANGES p) as [| e l] eqn:E;
      [congruence |].
    assert (Hin : In e (filteredColorRange COLOR_RANGES p))
      by (rewrite E; now left).
    apply filteredColorRange_In in Hin as [Hin [_ Hs]]. eauto.
  - intros (e & Hin & Hs) E.
    assert (H : In e (filteredColorRange COLOR_RANGES p)).
    { apply filteredColorRange_In. split; [exact Hin |].
      split; [left; exact Ht | exact Hs]. }
    now rewrite E in H.
Qed.

Lemma offered_steps_have_palettes_witness :
  filteredColorRange
    [catalog_entry "a" (Some "sequential") [VStr "#1"; VStr "#2"; VStr "#3"];
     catalog_entry "b" (Some "diverging") [VStr "#1"; VStr "#2"]]
    (config_props "all" 2) <> [].
Proof.
  apply (offered_steps_have_palettes Z.sub
           [catalog_entry "a" (Some "sequential") [VStr "#1"; VStr "#2"; VStr "#3"];
            catalog_entry "b" (Some "diverging") [VStr "#1"; VStr "#2"]]
           (config_props "all" 2)).
  - reflexivity.
  - vm_compute. auto.
Defined.

(** X13. Every type that [ALL_TYPES] offers, "custom" apart, has a step
    count among those of [ALL_STEPS] for which the filter returns at least
    one palette, as soon as the catalog is not empty. *)
Theorem offered_types_have_palettes
  (numberSort : Z -> Z -> Z) (COLOR_RANGES : list ColorRange) (t : string) :
  In t (ALL_TYPES COLOR_RANGES) ->
  t <> "custom" ->
  COLOR_RANGES <> [] ->
  exists s,
    In s (ALL_STEPS numberSort COLOR_RANGES)
    /\ forall p,
        config_type (colorRangeConfig (colorPaletteUI p)) = t ->
        steps (colorRangeConfig (colorPaletteUI p)) = s ->
        filteredColorRange COLOR_RANGES p <> [].
Proof.
  intros Ht Hcustom Hne.
  assert (He : exists e, In e COLOR_RANGES /\ (t = "all" \/ type e = Some t)).
  { apply ALL_TYPES_In in Ht as [-> | [-> | (_ & e & Hin & He)]].
    - destruct COLOR_RANGES as [| e l]; [congruence |].
      exists e. split; [now left | now left].
    - congruence.
    - eauto. }
  destruct He as (e & Hin & Hty).
  exists (Z.of_nat (List.length (colors e))). split.
  - apply ALL_STEPS_In. eauto.
  - intros p Hpt Hps E.
    assert (H : In e (filteredColorRange COLOR_RANGES p)).
    { apply filteredColorRange_In. split; [exact Hin |].
      rewrite Hpt, Hps. split; [exact Hty | reflexivity]. }
    now rewrite E in H.
Qed.

Lemma offered_types_have_palettes_witness :
  exists s,
    In s (ALL_STEPS Z.sub
            [catalog_entry "a" (Some "sequential") [VStr "#1"; VStr "#2"; VStr "#3"];
             catalog_entry "b" (Some "diverging") [VStr "#1"; VStr "#2"]]).
Proof.
  destruct (offered_types_have_palettes Z.sub
              [catalog_entry "a" (Some "sequential")
                 [VStr "#1"; VStr "#2"; VStr "#3"];
               catalog_entry "b" (Some "diverging") [VStr "#1"; VStr "#2"]]
              "diverging"
              ltac:(vm_compute; auto) ltac:(discriminate) ltac:(discriminate))
    as (s & Hs & _).
  exists s. exact Hs.
Defined.

(** X14. How results of the filter relate: every palette returned for a
    type is also returned for "all" with the same step count, and no
    palette is returned for two different step counts. *)
Theorem filteredColorRange_across_configurations
  (COLOR_RANGES : list ColorRange) (p p' : Props) (e : ColorRange) :
  In e (filteredColorRange COLOR_RANGES p) ->
  (config_type (colorRangeConfig (colorPaletteUI p')) = "all" ->
   steps (colorRangeConfig (colorPaletteUI p'))
   = steps (colorRangeConfig (colorPaletteUI p)) ->
   In e (filteredColorRange COLOR_RANGES p'))
  /\ (steps (colorRangeConfig (colorPaletteUI p'))
      <> steps (colorRangeConfig (colorPaletteUI p)) ->
      ~ In e (filteredColorRange COLOR_RANGES p')).
Proof.
  intros H. apply filteredColorRange_In in H as [Hin [Hty Hs]]. split.
  - intros Hall Hsteps. apply filteredColorRange_In.
    split; [exact Hin |]. split; [left; exact Hall | congruence].
  - intros Hne H'. apply filteredColorRange_In in H' as [_ [_ Hs']].
    congruence.
Qed.

Lemma filteredColorRange_across_configurations_witness :
  In (catalog_entry "b" (Some "diverging") [VStr "#1"; VStr "#2"])
    (filteredColorRange
       [catalog_entry "a" (Some "sequential") [VStr "#1"; VStr "#2"; VStr "#3"];
        catalog_entry "b" (Some "diverging") [VStr "#1"; VStr "#2"]]
       (config_props "all" 2)).
Proof.
  apply (proj1 (filteredColorRange_across_configurations
                  [catalog_entry "a" (Some "sequential")
                     [VStr "#1"; VStr "#2"; VStr "#3"];
                   catalog_entry "b" (Some "diverging") [VStr "#1"; VStr "#2"]]
                  (config_props "diverging" 2) (config_props "all" 2)
                  (catalog_entry "b" (Some "diverging") [VStr "#1"; VStr "#2"])
                  ltac:(vm_compute; auto))).
  - reflexivity.
  - reflexivity.
Defined.

(** X15. [ColorPaletteGroup] shows one swatch per color range, in order,
    with that range's colors.  A swatch is marked selected exactly when its
    range has the name of the selected range and the [reversed] prop is the
    boolean that [Boolean(selected.reversed)] gives; so when the [reversed]
    prop is omitted no swatch is marked selected.  A click passes the range
    itself when [reversed] is not true, and its reversed variant when it
    is. *)
Theorem ColorPaletteGroup_swatches
  (reverseColorRange : bool -> ColorRange -> ColorRange)
  (p : ColorPaletteGroupProps) :
  List.length (ColorPaletteGroup reverseColorRange p)
  = List.length (colorRanges p)
  /\ forall (j : nat) (sw : Swatch),
      nth_error (ColorPaletteGroup reverseColorRange p) j = Some sw ->
      exists c,
        nth_error (colorRanges p) j = Some c
        /\ palette_colors sw = colors c
        /\ (isSelected sw = true
            <-> name c = name (selected p)
                /\ group_reversed p = Some (Boolean (reversed (selected p))))
        /\ (group_reversed p = None -> isSelected sw = false)
        /\ (group_reversed p <> Some true -> onClick sw = c)
        /\ (group_reversed p = Some true ->
            onClick sw = reverseColorRange true c).
Proof.
  split; [apply Array_map_length |].
  intros j sw Hsw.
  destruct (ColorPaletteGroup_nth _ _ _ _ Hsw) as (c & Hc & Hclick & Hcol & _ & Hsel).
  exists c. split; [exact Hc |]. split; [exact Hcol |].
  split; [now apply (isSelected_iff reverseColorRange p j) |].
  split; [| split].
  - intros Hr. rewrite Hsel, Hr. cbn. apply andb_false_r.
  - intros Hr. rewrite Hclick. destruct (group_reversed p) as [[|] |];
      cbn; congruence.
  - intros Hr. rewrite Hclick, Hr. reflexivity.
Qed.

Lemma ColorPaletteGroup_swatches_witness :
  let p :=
    {| group_reversed := None;
       selected := catalog_entry "a" None [VStr "#1"];
       colorRanges := [catalog_entry "a" None [VStr "#1"]] |} in
  exists sw,
    nth_error (ColorPaletteGroup (fun _ c => c) p) 0 = Some sw
    /\ isSelected sw = false.
Proof.
  eexists. split; [reflexivity |].
  destruct (proj2 (ColorPaletteGroup_swatches (fun _ c => c)
              {| group_reversed := None;
                 selected := catalog_entry "a" None [VStr "#1"];
                 colorRanges := [catalog_entry "a" None [VStr "#1"]] |})
              O _ eq_refl) as (c & _ & _ & _ & H & _).
  apply H. reflexivity.
Defined.

(** X16. When the color ranges have distinct names, [ColorPaletteGroup]
    marks at most one swatch as selected. *)
Theorem ColorPaletteGroup_one_selected
  (reverseColorRange : bool -> ColorRange -> ColorRange)
  (p : ColorPaletteGroupProps) (j k : nat) (sw sw' : Swatch) :
  NoDup (map name (colorRanges p)) ->
  nth_error (ColorPaletteGroup reverseColorRange p) j = Some sw ->
  nth_error (ColorPaletteGroup reverseColorRange p) k = Some sw' ->
  isSelected sw = true -> isSelected sw' = true ->
  j = k.
Proof.
  intros Hnd Hsw Hsw' Hs Hs'.
  destruct (ColorPaletteGroup_nth _ _ _ _ Hsw) as (c & Hc & _).
  destruct (ColorPaletteGroup_nth _ _ _ _ Hsw') as (c' & Hc' & _).
  apply (isSelected_iff _ _ _ _ c Hsw Hc) in Hs as [Hn _].
  apply (isSelected_iff _ _ _ _ c' Hsw' Hc') in Hs' as [Hn' _].
  apply (proj1 (NoDup_nth_error (map name (colorRanges p))) Hnd).
  - rewrite length_map. apply nth_error_Some. congruence.
  - rewrite !nth_error_map, Hc, Hc'. cbn [option_map]. congruence.
Qed.

Lemma ColorPaletteGroup_one_selected_witness :
  NoDup (map name [catalog_entry "a" None [VStr "#1"];
                   catalog_entry "b" None [VStr "#2"]])
  /\ O = O.
Proof.
  assert (N : NoDup (map name [catalog_entry "a" None [VStr "#1"];
                               catalog_entry "b" None [VStr "#2"]])).
  { repeat constructor; simpl; intuition discriminate. }
  split; [exact N |].
  eapply (ColorPaletteGroup_one_selected (fun _ c => c)
            {| group_reversed := Some false;
               selected := catalog_entry "a" None [VStr "#1"];
               colorRanges := [catalog_entry "a" None [VStr "#1"];
                               catalog_entry "b" None [VStr "#2"]] |} 0 0).
  - exact N.
  - reflexivity.
  - reflexivity.
  - reflexivity.
  - reflexivity.
Defined.



(** X18. Outside custom mode [render] shows a palette group over the
    filtered catalog: as many swatches as the filter returns palettes, each
    with exactly [steps] colors, each from a catalog entry of the configured
    type, with the reversal flag of the configuration.  In custom mode it
    shows the editor with the thresholds and the custom-domain flag of the
    state. *)
Theorem render_body_palettes
  (COLOR_RANGES : list ColorRange)
  (reverseColorRange : bool -> ColorRange -> ColorRange)
  (selectedColorRange : ColorRange) (this : Component) :
  let cfg := colorRangeConfig (colorPaletteUI (props this)) in
  (custom cfg = false ->
   exists g,
     render_body COLOR_RANGES selectedColorRange this
     = ColorPaletteGroupElement g
     /\ List.length (ColorPaletteGroup reverseColorRange g)
        = List.length (filteredColorRange COLOR_RANGES (props this))
     /\ forall sw,
         In sw (ColorPaletteGroup reverseColorRange g) ->
         Z.of_nat (List.length (palette_colors sw)) = steps cfg
         /\ isReversed sw = Some (config_reversed cfg)
         /\ exists e,
             In e COLOR_RANGES /\ palette_colors sw = colors e
             /\ (config_type cfg = "all" \/ type e = Some (config_type cfg)))
  /\ (custom cfg = true ->
      render_body COLOR_RANGES selectedColorRange this
      = CustomPaletteElement (customPalette (colorPaletteUI (props this)))
          (isCustomDomain (state this)) (colorDomain (props this))
          (colorThresholds (state this))
          (showSketcher (colorPaletteUI (props this)))).
Proof.
  intros cfg. unfold render_body. fold cfg. split.
  - intros Hc. rewrite Hc. eexists. split; [reflexivity |].
    split; [apply Array_map_length |].
    intros sw Hin. apply In_nth_error in Hin as [j Hj].
    destruct (ColorPaletteGroup_nth _ _ _ _ Hj) as (e & He & _ & Hcol & Hrev & _).
    cbn [colorRanges group_reversed] in He, Hrev.
    apply nth_error_In in He.
    apply filteredColorRange_In in He as [Hin [Hty Hs]].
    fold cfg in Hty, Hs.
    split; [now rewrite Hcol |]. split; [exact Hrev |].
    exists e. auto.
  - intros Hc. now rewrite Hc.
Qed.

Lemma render_body_palettes_witness :
  exists g,
    render_body
      [catalog_entry "a" (Some "sequential") [VStr "#1"; VStr "#2"; VStr "#3"];
       catalog_entry "b" (Some "diverging") [VStr "#1"; VStr "#2"]]
      (catalog_entry "b" (Some "diverging") [VStr "#1"; VStr "#2"])
      (make_component (config_props "all" 2) [])
    = ColorPaletteGroupElement g
    /\ List.length (ColorPaletteGroup (fun _ c => c) g) = 1%nat.
Proof.
  destruct (proj1 (render_body_palettes
              [catalog_entry "a" (Some "sequential")
                 [VStr "#1"; VStr "#2"; VStr "#3"];
               catalog_entry "b" (Some "diverging") [VStr "#1"; VStr "#2"]]
              (fun _ c => c)
              (catalog_entry "b" (Some "diverging") [VStr "#1"; VStr "#2"])
              (make_component (config_props "all" 2) [])) eq_refl)
    as (g & Hg & Hlen & _).
  exists g. split; [exact Hg | exact Hlen].
Defined.

(** X19. A color map in the props wins over the domain: the constructor
    then never reads the domain and never throws, whatever the domain and
    the step count; it sets the custom-domain flag and keeps one threshold
    less than the map has entries.  Without a color map and without a
    domain it returns too, with no threshold and the flag unset. *)
Theorem constructor_with_colorMap (p : Props) :
  (forall m,
      colorMap (customPalette (colorPaletteUI p)) = Some m ->
      exists l,
        initial_state p = Ok {| isCustomDomain := true; colorThresholds := l |}
        /\ List.length l = (List.length m - 1)%nat)
  /\ (colorMap (customPalette (colorPaletteUI p)) = None ->
      colorDomain p = None ->
      initial_state p = Ok {| isCustomDomain := false; colorThresholds := [] |}).
Proof.
  split.
  - intros m Hm. unfold initial_state, _fromColorMap. rewrite Hm. cbn [bind].
    eexists. split; [reflexivity |].
    now rewrite Array_pop_length, length_map.
  - intros Hm Hd. unfold initial_state, _init. now rewrite Hm, Hd.
Qed.

Lemma constructor_with_colorMap_witness :
  exists l,
    initial_state
      (make_props (Some [DStr "abc"; DStr "xyz"]) 5 [VStr "#fff"; VStr "#000"]
         (Some [Some [VStr "abc to m"; VStr "#fff"];
                Some [VStr "m to xyz"; VStr "#000"]]))
    = Ok {| isCustomDomain := true; colorThresholds := l |}
    /\ List.length l = 1%nat.
Proof.
  apply (proj1 (constructor_with_colorMap
                  (make_props (Some [DStr "abc"; DStr "xyz"]) 5
                     [VStr "#fff"; VStr "#000"]
                     (Some [Some [VStr "abc to m"; VStr "#fff"];
                            Some [VStr "m to xyz"; VStr "#000"]])))
           [Some [VStr "abc to m"; VStr "#fff"];
            Some [VStr "m to xyz"; VStr "#000"]]).
  reflexivity.
Defined.

End More.
